(** * LinguaBuddy: the conversation session orchestrator

    A shallow embedding of the chat component
    ([src/components/Chat/ChatInterface.tsx]) and of the [ai-chat] edge
    function ([supabase/functions/ai-chat/index.ts]).

    - JavaScript strings are sequences of UTF-16 code units ([list N]).
    - The asynchronous functions are programs of a small free monad: every
      state setter, clock reading and awaited request is an event, a
      rejected promise is an exception, and [try]/[catch]/[finally] are
      combinators on programs.
    - A run interprets the events against the component state, the record
      store and an environment that answers the awaited requests, and
      records the trace of events. *)

From Stdlib Require Import List NArith ZArith Bool String Ascii Lia.
From ExtLib Require Import Structures.Monad.
Import ListNotations.
Import MonadNotation.

Set Warnings "-register-all".
Local Open Scope N_scope.
Local Open Scope list_scope.
Local Open Scope monad_scope.

(* ================================================================= *)
(** ** JavaScript strings *)

(** A string value: its UTF-16 code units. *)
Definition jsstring : Type := list N.

(** The code units of a literal of the (UTF-8 encoded) source text. *)
Fixpoint utf16 (bs : list N) : jsstring :=
  match bs with
  | [] => []
  | b0 :: t0 =>
    if b0 <? 128 then b0 :: utf16 t0
    else
      match t0 with
      | [] => [65533]
      | b1 :: t1 =>
        if b0 <? 224 then (b0 mod 32 * 64 + b1 mod 64) :: utf16 t1
        else
          match t1 with
          | [] => [65533]
          | b2 :: t2 =>
            if b0 <? 240
            then (b0 mod 16 * 4096 + b1 mod 64 * 64 + b2 mod 64) :: utf16 t2
            else
              match t2 with
              | [] => [65533]
              | b3 :: t3 =>
                let cp := b0 mod 8 * 262144 + b1 mod 64 * 4096
                          + b2 mod 64 * 64 + b3 mod 64 in
                (55296 + (cp - 65536) / 1024)
                  :: (56320 + (cp - 65536) mod 1024) :: utf16 t3
              end
          end
      end
  end.

Definition js (s : string) : jsstring :=
  utf16 (map N_of_ascii (list_ascii_of_string s)).

(** A literal written with apostrophes where the text has double quotes. *)
Definition jsq (s : string) : jsstring :=
  map (fun c => if c =? 39 then 34 else c) (js s).

Definition jsstring_eqb (a b : jsstring) : bool :=
  if list_eq_dec N.eq_dec a b then true else false.

(** Truthiness of a string: only the empty string is falsy. *)
Definition truthy (s : jsstring) : bool :=
  match s with [] => false | _ :: _ => true end.

(** [WhiteSpace] and [LineTerminator] code units of ECMAScript, the ones
    [String.prototype.trim] strips. *)
Definition isWhiteSpace (c : N) : bool :=
  (c =? 9) || (c =? 10) || (c =? 11) || (c =? 12) || (c =? 13) || (c =? 32)
  || (c =? 160) || (c =? 5760) || ((8192 <=? c) && (c <=? 8202))
  || (c =? 8232) || (c =? 8233) || (c =? 8239) || (c =? 8287)
  || (c =? 12288) || (c =? 65279).

Fixpoint trimStart (s : jsstring) : jsstring :=
  match s with
  | [] => []
  | c :: r => if isWhiteSpace c then trimStart r else s
  end.

Definition trimEnd (s : jsstring) : jsstring := rev (trimStart (rev s)).

Definition trim (s : jsstring) : jsstring := trimEnd (trimStart s).

(** [Number.prototype.toString] on a non-negative integer: its decimal
    digits. *)
Fixpoint uint_units (d : Decimal.uint) : jsstring :=
  match d with
  | Decimal.Nil => []
  | Decimal.D0 r => 48 :: uint_units r
  | Decimal.D1 r => 49 :: uint_units r
  | Decimal.D2 r => 50 :: uint_units r
  | Decimal.D3 r => 51 :: uint_units r
  | Decimal.D4 r => 52 :: uint_units r
  | Decimal.D5 r => 53 :: uint_units r
  | Decimal.D6 r => 54 :: uint_units r
  | Decimal.D7 r => 55 :: uint_units r
  | Decimal.D8 r => 56 :: uint_units r
  | Decimal.D9 r => 57 :: uint_units r
  end.

Definition Number_toString (n : N) : jsstring := uint_units (N.to_uint n).

(* ================================================================= *)
(** ** JSON values and [JSON.parse] *)

(** A JSON value, as [JSON.parse] reads it.  A number is kept as its
    lexeme and the members of an object as they are written; the Number
    value of a lexeme and the properties of the object are computed where
    the value is printed ([JSON_stringify], [JValue_toString]) or a member
    is read ([lookup_member]). *)
Inductive JValue : Type :=
| JNull
| JBool (b : bool)
| JNumber (lexeme : jsstring)
| JString (s : jsstring)
| JArray (elems : list JValue)
| JObject (members : list (jsstring * JValue)).

(** A run-time value of the component: [undefined] (also an absent object
    property), a JSON value, or a built-in object that is not JSON (what a
    lookup finds on [Object.prototype]). *)
Inductive Value : Type :=
| VUndefined
| VJson (v : JValue)
| VNative (name : jsstring).

Definition VStr (s : jsstring) : Value := VJson (JString s).

Inductive Token : Type :=
| TLBrace | TRBrace | TLBracket | TRBracket | TColon | TComma
| TString (s : jsstring) | TNumber (lexeme : jsstring)
| TTrue | TFalse | TNull.

Inductive NumState : Type :=
| NMinus | NZero | NInt | NDot | NFrac | NExp | NExpSign | NExpDigits.

(** The lexer reads one code unit at a time.  Accumulators are reversed. *)
Inductive LexState : Type :=
| LIdle
| LString (acc : jsstring)
| LEscape (acc : jsstring)
| LUnicode (acc : jsstring) (count : nat) (val : N)
| LNumber (st : NumState) (acc : jsstring)
| LWord (expect : jsstring) (tok : Token).

Definition isJsonWs (c : N) : bool :=
  (c =? 9) || (c =? 10) || (c =? 13) || (c =? 32).

Definition isDigit (c : N) : bool := (48 <=? c) && (c <=? 57).

Definition hexval (c : N) : option N :=
  if isDigit c then Some (c - 48)
  else if (97 <=? c) && (c <=? 102) then Some (c - 87)
  else if (65 <=? c) && (c <=? 70) then Some (c - 55)
  else None.

Definition idle_step (c : N) : option (LexState * list Token) :=
  if isJsonWs c then Some (LIdle, [])
  else if c =? 123 then Some (LIdle, [TLBrace])
  else if c =? 125 then Some (LIdle, [TRBrace])
  else if c =? 91 then Some (LIdle, [TLBracket])
  else if c =? 93 then Some (LIdle, [TRBracket])
  else if c =? 58 then Some (LIdle, [TColon])
  else if c =? 44 then Some (LIdle, [TComma])
  else if c =? 34 then Some (LString [], [])
  else if c =? 45 then Some (LNumber NMinus [c], [])
  else if c =? 48 then Some (LNumber NZero [c], [])
  else if isDigit c then Some (LNumber NInt [c], [])
  else if c =? 116 then Some (LWord (js "rue") TTrue, [])
  else if c =? 102 then Some (LWord (js "alse") TFalse, [])
  else if c =? 110 then Some (LWord (js "ull") TNull, [])
  else None.

(** The number grammar: [Some st'] when [c] continues the number. *)
Definition num_step (st : NumState) (c : N) : option NumState :=
  let isE := (c =? 101) || (c =? 69) in
  match st with
  | NMinus => if c =? 48 then Some NZero
              else if isDigit c then Some NInt else None
  | NZero => if c =? 46 then Some NDot else if isE then Some NExp else None
  | NInt => if isDigit c then Some NInt
            else if c =? 46 then Some NDot
            else if isE then Some NExp else None
  | NDot => if isDigit c then Some NFrac else None
  | NFrac => if isDigit c then Some NFrac
             else if isE then Some NExp else None
  | NExp => if (c =? 43) || (c =? 45) then Some NExpSign
            else if isDigit c then Some NExpDigits else None
  | NExpSign => if isDigit c then Some NExpDigits else None
  | NExpDigits => if isDigit c then Some NExpDigits else None
  end.

Definition num_accepting (st : NumState) : bool :=
  match st with
  | NZero | NInt | NFrac | NExpDigits => true
  | NMinus | NDot | NExp | NExpSign => false
  end.

Definition escape_unit (c : N) : option N :=
  if c =? 34 then Some 34
  else if c =? 92 then Some 92
  else if c =? 47 then Some 47
  else if c =? 98 then Some 8
  else if c =? 102 then Some 12
  else if c =? 110 then Some 10
  else if c =? 114 then Some 13
  else if c =? 116 then Some 9
  else None.

Definition lex_step (st : LexState) (c : N) : option (LexState * list Token) :=
  match st with
  | LIdle => idle_step c
  | LString acc =>
    if c =? 34 then Some (LIdle, [TString (rev acc)])
    else if c =? 92 then Some (LEscape acc, [])
    else if c <? 32 then None
    else Some (LString (c :: acc), [])
  | LEscape acc =>
    if c =? 117 then Some (LUnicode acc 0 0, [])
    else match escape_unit c with
         | Some u => Some (LString (u :: acc), [])
         | None => None
         end
  | LUnicode acc count val =>
    match hexval c with
    | Some h =>
      let val' := val * 16 + h in
      match count with
      | 3%nat => Some (LString (val' :: acc), [])
      | _ => Some (LUnicode acc (S count) val', [])
      end
    | None => None
    end
  | LNumber ns acc =>
    match num_step ns c with
    | Some ns' => Some (LNumber ns' (c :: acc), [])
    | None =>
      if num_accepting ns
      then match idle_step c with
           | Some (st', out) => Some (st', TNumber (rev acc) :: out)
           | None => None
           end
      else None
    end
  | LWord expect tok =>
    match expect with
    | [] => None
    | e :: rest =>
      if c =? e
      then match rest with
           | [] => Some (LIdle, [tok])
           | _ :: _ => Some (LWord rest tok, [])
           end
      else None
    end
  end.

Definition lex_end (st : LexState) : option (list Token) :=
  match st with
  | LIdle => Some []
  | LNumber ns acc => if num_accepting ns then Some [TNumber (rev acc)] else None
  | _ => None
  end.

Fixpoint lex_from (st : LexState) (s : jsstring) : option (list Token) :=
  match s with
  | [] => lex_end st
  | c :: r =>
    match lex_step st c with
    | Some (st', out) =>
      match lex_from st' r with
      | Some ts => Some (out ++ ts)
      | None => None
      end
    | None => None
    end
  end.

(** The parser is a pushdown automaton over the tokens. *)
Inductive Frame : Type :=
| FArray (acc : list JValue)
| FObject (acc : list (jsstring * JValue))
| FMember (acc : list (jsstring * JValue)) (key : jsstring).

Inductive Mode : Type :=
| WantValue
| WantValueOrEnd
| WantKey
| WantKeyOrEnd
| WantColon (key : jsstring)
| Done (v : JValue).

Definition scalar_of (t : Token) : option JValue :=
  match t with
  | TString s => Some (JString s)
  | TNumber l => Some (JNumber l)
  | TTrue => Some (JBool true)
  | TFalse => Some (JBool false)
  | TNull => Some JNull
  | _ => None
  end.

Definition value_start (t : Token) (st : list Frame) : option (list Frame * Mode) :=
  match t with
  | TLBracket => Some (FArray [] :: st, WantValueOrEnd)
  | TLBrace => Some (FObject [] :: st, WantKeyOrEnd)
  | _ => match scalar_of t with
         | Some v => Some (st, Done v)
         | None => None
         end
  end.

Definition pda_step (t : Token) (st : list Frame) (m : Mode)
  : option (list Frame * Mode) :=
  match m with
  | WantValue => value_start t st
  | WantValueOrEnd =>
    match t, st with
    | TRBracket, FArray acc :: st' => Some (st', Done (JArray (rev acc)))
    | _, _ => value_start t st
    end
  | WantKey =>
    match t with
    | TString k => Some (st, WantColon k)
    | _ => None
    end
  | WantKeyOrEnd =>
    match t, st with
    | TString k, _ => Some (st, WantColon k)
    | TRBrace, FObject acc :: st' => Some (st', Done (JObject (rev acc)))
    | _, _ => None
    end
  | WantColon k =>
    match t, st with
    | TColon, FObject acc :: st' => Some (FMember acc k :: st', WantValue)
    | _, _ => None
    end
  | Done v =>
    match t, st with
    | TComma, FArray acc :: st' => Some (FArray (v :: acc) :: st', WantValue)
    | TRBracket, FArray acc :: st' => Some (st', Done (JArray (rev (v :: acc))))
    | TComma, FMember acc k :: st' => Some (FObject ((k, v) :: acc) :: st', WantKey)
    | TRBrace, FMember acc k :: st' =>
      Some (st', Done (JObject (rev ((k, v) :: acc))))
    | _, _ => None
    end
  end.

Fixpoint pda (ts : list Token) (st : list Frame) (m : Mode) : option JValue :=
  match ts with
  | [] => match m, st with
          | Done v, [] => Some v
          | _, _ => None
          end
  | t :: ts' =>
    match pda_step t st m with
    | Some (st', m') => pda ts' st' m'
    | None => None
    end
  end.

(** [JSON.parse(text)]: [None] when it throws a [SyntaxError]. *)
Definition JSON_parse (text : jsstring) : option JValue :=
  match lex_from LIdle text with
  | Some ts => pda ts [] WantValue
  | None => None
  end.

(** Reading a property of a parsed value.  An object answers with the last
    member of that name; the keys read by this program ([response],
    [translation], [tip], [choices], [message], [content]) name no built-in
    property of a string, an array or [Object.prototype]. *)
Fixpoint lookup_member (k : jsstring) (ms : list (jsstring * JValue))
  : option JValue :=
  match ms with
  | [] => None
  | (k', v) :: r =>
    match lookup_member k r with
    | Some v' => Some v'
    | None => if jsstring_eqb k k' then Some v else None
    end
  end.


(* ================================================================= *)
(** ** Numbers, and what [JSON.stringify] writes *)

(** A Number value that is not [NaN], sign apart: zero, an infinity, or
    [m * 2^q] with [2^52 <= m < 2^53] and [-1074 <= q <= 971], or with
    [0 < m < 2^52] and [q = -1074]. *)
Inductive Magnitude : Type :=
| MZero
| MFinite (m q : Z)
| MInfinity.

(** The integer part of the binary logarithm of [a / b]. *)
Definition floorLog2 (a b : Z) : Z :=
  let e := (Z.log2 a - Z.log2 b)%Z in
  if (if (0 <=? e)%Z then (b * 2 ^ e <=? a)%Z else (b <=? a * 2 ^ (- e))%Z)
  then e else (e - 1)%Z.

(** The integer nearest to [a / b], the even one of two. *)
Definition nearest (a b : Z) : Z :=
  let m := (a / b)%Z in
  let r := (a mod b)%Z in
  if (b <? 2 * r)%Z then (m + 1)%Z
  else if (2 * r =? b)%Z && Z.odd m then (m + 1)%Z
  else m.

(** The Number value for the positive rational [a / b]: round to nearest,
    ties to even. *)
Definition roundToDouble (a b : Z) : Magnitude :=
  let q := Z.max (floorLog2 a b - 52) (-1074) in
  let m := if (0 <=? q)%Z then nearest a (b * 2 ^ q) else nearest (a * 2 ^ (- q)) b in
  if (m =? 0)%Z then MZero
  else
    let q' := if (m =? 2 ^ 53)%Z then (q + 1)%Z else q in
    let m' := if (m =? 2 ^ 53)%Z then (2 ^ 52)%Z else m in
    if (971 <? q')%Z then MInfinity else MFinite m' q'.

(** The Number value for [d * 10^x], [d >= 0]. *)
Definition decimalToDouble (d x : Z) : Magnitude :=
  if (d =? 0)%Z then MZero
  else if (0 <=? x)%Z then roundToDouble (d * 10 ^ x) 1
  else roundToDouble d (10 ^ (- x)).

Definition Magnitude_eqb (a b : Magnitude) : bool :=
  match a, b with
  | MZero, MZero => true
  | MInfinity, MInfinity => true
  | MFinite m q, MFinite m' q' => (m =? m')%Z && (q =? q')%Z
  | _, _ => false
  end.

(** The digits of a numeral read as a number. *)
Definition digitsValue (ds : jsstring) : Z :=
  fold_left (fun a c => (a * 10 + Z.of_N (c - 48))%Z) ds 0%Z.

Fixpoint takeDigits (s : jsstring) : jsstring * jsstring :=
  match s with
  | [] => ([], [])
  | c :: r =>
    if isDigit c
    then let (ds, rest) := takeDigits r in (c :: ds, rest)
    else ([], s)
  end.

(** A JSON number lexeme, read: its sign, and [d] and [x] with value
    [d * 10^x], together with the count of its digits.  [None] when the
    text is no such lexeme. *)
Definition readLexeme (lexeme : jsstring) : option (bool * Z * Z * Z) :=
  let neg := match lexeme with c :: _ => c =? 45 | [] => false end in
  let s0 := if neg then tl lexeme else lexeme in
  let (int, s1) := takeDigits s0 in
  let (frac, s2) :=
    match s1 with
    | c :: r => if c =? 46 then takeDigits r else ([], s1)
    | [] => ([], [])
    end in
  let digits := int ++ frac in
  let count := Z.of_nat (List.length digits) in
  let fracs := Z.of_nat (List.length frac) in
  match int with
  | [] => None
  | _ :: _ =>
    match s2 with
    | [] => Some (neg, digitsValue digits, (- fracs)%Z, count)
    | c :: r =>
      if (c =? 101) || (c =? 69)
      then
        let minus := match r with s :: _ => s =? 45 | [] => false end in
        let plus := match r with s :: _ => s =? 43 | [] => false end in
        let ds := if minus || plus then tl r else r in
        match ds with
        | [] => None
        | _ :: _ =>
          if forallb isDigit ds
          then
            let e := digitsValue ds in
            Some (neg, digitsValue digits,
                  ((if minus then - e else e) - fracs)%Z, count)
          else None
        end
      else None
    end
  end.

(** The Number value of a lexeme.  A value of [count] digits times [10^x]
    is below [10^(count + x)] and, unless it is zero, at least [10^x]: the
    powers of ten that are out of the range of every double are not
    computed. *)
Definition lexemeToDouble (d x count : Z) : Magnitude :=
  if (d =? 0)%Z then MZero
  else if (400 <? x)%Z then MInfinity
  else if (count + x <? -400)%Z then MZero
  else decimalToDouble d x.

(** [n] with [10^(n-1) <= a / b < 10^n]. *)
Fixpoint adjustUp (fuel : nat) (a b n : Z) : Z :=
  match fuel with
  | O => n
  | S f =>
    (* is 10^n <= a/b ? *)
    if (if (0 <=? n)%Z then (b * 10 ^ n <=? a)%Z else (b <=? a * 10 ^ (- n))%Z)
    then adjustUp f a b (n + 1)%Z else n
  end.

Fixpoint adjustDown (fuel : nat) (a b n : Z) : Z :=
  match fuel with
  | O => n
  | S f =>
    (* is a/b < 10^(n-1) ? *)
    if (if (0 <=? n - 1)%Z then (a <? b * 10 ^ (n - 1))%Z
        else (a * 10 ^ (1 - n) <? b)%Z)
    then adjustDown f a b (n - 1)%Z else n
  end.

Definition decimalPoint (a b : Z) : Z :=
  let guess := (floorLog2 a b * 30103 / 100000)%Z in
  adjustDown 4 a b (adjustUp 4 a b guess).

(** The shortest digits that read back as [m * 2^q]: the least [k] for
    which one of the two [k]-digit decimals around the value rounds to it;
    of two that do, the nearer, and the even one if they are as near.
    The result is [s] and [x] for the decimal [s * 10^x]. *)
Fixpoint shortest (fuel : nat) (m q a b n k : Z) : Z * Z :=
  let x := (n - k)%Z in
  let num := if (0 <=? x)%Z then a else (a * 10 ^ (- x))%Z in
  let den := if (0 <=? x)%Z then (b * 10 ^ x)%Z else b in
  let lo := (num / den)%Z in
  let r := (num mod den)%Z in
  let hi := (lo + 1)%Z in
  let lo_ok := Magnitude_eqb (decimalToDouble lo x) (MFinite m q) in
  let hi_ok := Magnitude_eqb (decimalToDouble hi x) (MFinite m q) in
  let up := (den <? 2 * r)%Z || ((2 * r =? den)%Z && Z.odd lo) in
  match fuel with
  | O => (if up then hi else lo, x)
  | S f =>
    if lo_ok && hi_ok then (if up then hi else lo, x)
    else if lo_ok then (lo, x)
    else if hi_ok then (hi, x)
    else shortest f m q a b n (k + 1)%Z
  end.

Fixpoint stripZeros (fuel : nat) (s x : Z) : Z * Z :=
  match fuel with
  | O => (s, x)
  | S f => if (s mod 10 =? 0)%Z then stripZeros f (s / 10)%Z (x + 1)%Z else (s, x)
  end.

Definition zeros (n : Z) : jsstring := repeat 48 (Z.to_nat n).

(** [Number::toString] of a positive finite value, from its digits [ds]
    and the position [n] of the decimal point. *)
Definition formatDecimal (ds : jsstring) (n : Z) : jsstring :=
  let k := Z.of_nat (List.length ds) in
  if (k <=? n)%Z && (n <=? 21)%Z then ds ++ zeros (n - k)
  else if (0 <? n)%Z && (n <=? 21)%Z
  then firstn (Z.to_nat n) ds ++ [46] ++ skipn (Z.to_nat n) ds
  else if (-6 <? n)%Z && (n <=? 0)%Z
  then [48; 46] ++ zeros (- n) ++ ds
  else
    let e := (n - 1)%Z in
    let exponent :=
      [101] ++ [if (e <? 0)%Z then 45 else 43] ++ Number_toString (Z.to_N (Z.abs e)) in
    match ds with
    | [d] => [d] ++ exponent
    | d :: r => [d] ++ [46] ++ r ++ exponent
    | [] => exponent
    end.

(** [Number::toString] of [m * 2^q]. *)
Definition doubleToString (m q : Z) : jsstring :=
  let a := if (0 <=? q)%Z then (m * 2 ^ q)%Z else m in
  let b := if (0 <=? q)%Z then 1%Z else (2 ^ (- q))%Z in
  let n := decimalPoint a b in
  let (s0, x0) := shortest 17 m q a b n 1 in
  let (s, x) := stripZeros 400 s0 x0 in
  let ds := Number_toString (Z.to_N s) in
  formatDecimal ds (x + Z.of_nat (List.length ds)).

(** [String(Number(lexeme))]; a text that is no lexeme is left as it is. *)
Definition Number_print (lexeme : jsstring) : jsstring :=
  match readLexeme lexeme with
  | None => lexeme
  | Some (neg, d, x, count) =>
    match lexemeToDouble d x count with
    | MZero => [48]
    | MInfinity => (if neg then [45] else []) ++ [73; 110; 102; 105; 110; 105; 116; 121]
    | MFinite m q => (if neg then [45] else []) ++ doubleToString m q
    end
  end.

(** [JSON.stringify] of the Number value of a lexeme, read back: an
    infinity is written [null]. *)
Definition Number_written (lexeme : jsstring) : JValue :=
  match readLexeme lexeme with
  | None => JNumber lexeme
  | Some (neg, d, x, count) =>
    match lexemeToDouble d x count with
    | MZero => JNumber [48]
    | MInfinity => JNull
    | MFinite m q => JNumber ((if neg then [45] else []) ++ doubleToString m q)
    end
  end.

(** A property name that is an array index: the canonical numeral of an
    integer below [2^32 - 1]. *)
Definition arrayIndex (k : jsstring) : option Z :=
  match k with
  | [] => None
  | c :: r =>
    if forallb isDigit k
       && (negb (c =? 48) || match r with [] => true | _ :: _ => false end)
    then if (digitsValue k <? 4294967295)%Z then Some (digitsValue k) else None
    else None
  end.

Definition named (kv : jsstring * JValue) : bool :=
  match arrayIndex (fst kv) with
  | None => true
  | Some _ => false
  end.

(** Defining a property: a name that is there keeps its place and takes
    the new value. *)
Fixpoint defineProperty (k : jsstring) (v : JValue) (ps : list (jsstring * JValue))
  : list (jsstring * JValue) :=
  match ps with
  | [] => [(k, v)]
  | (k', v') :: r =>
    if jsstring_eqb k k' then (k', v) :: r else (k', v') :: defineProperty k v r
  end.

Fixpoint insertIndexed (kv : jsstring * JValue) (l : list (jsstring * JValue))
  : list (jsstring * JValue) :=
  match l with
  | [] => [kv]
  | kv' :: r =>
    match arrayIndex (fst kv), arrayIndex (fst kv') with
    | Some n, Some n' =>
      if (n <? n')%Z then kv :: l else kv' :: insertIndexed kv r
    | _, _ => kv :: l
    end
  end.

(** The properties of the object that results from defining the members
    [ms] one after the other, as they are enumerated: the array indices
    in ascending order, then the other names in the order in which they
    were first defined. *)
Definition ownProperties (ms : list (jsstring * JValue)) : list (jsstring * JValue) :=
  let ps := fold_left (fun ps kv => defineProperty (fst kv) (snd kv) ps) ms [] in
  fold_right insertIndexed [] (filter (fun kv => negb (named kv)) ps)
  ++ filter named ps.

(** [JSON.stringify(v)] for the value [v] that [JSON.parse] has built,
    kept as what [JSON.parse] reads back from the text written: a number
    is written from its Number value, an object has one member for each of
    its properties, a string is read back as it was. *)
Fixpoint JSON_stringify (v : JValue) : JValue :=
  match v with
  | JNull => JNull
  | JBool b => JBool b
  | JNumber l => Number_written l
  | JString s => JString s
  | JArray l => JArray (map JSON_stringify l)
  | JObject ms =>
    JObject (ownProperties (map (fun kv : jsstring * JValue =>
                            let (k, x) := kv in (k, JSON_stringify x)) ms))
  end.



(* ================================================================= *)
(** ** Asynchronous programs *)

(** What a thrown value or a rejection reason is. *)
Inductive Exn : Type :=
| JsError (message : jsstring)
| JsTypeError (message : jsstring)
| JsSyntaxError (message : jsstring).

Definition exn_message (x : Exn) : jsstring :=
  match x with
  | JsError m | JsTypeError m | JsSyntaxError m => m
  end.

(** How a promise settles, and how an expression that can throw
    evaluates. *)
Inductive Outcome (A : Type) : Type :=
| Fulfilled (a : A)
| Rejected (x : Exn).

Arguments Fulfilled {A} a.
Arguments Rejected {A} x.

(** [v.k] *)
Definition getProp (v : Value) (k : jsstring) : Outcome Value :=
  match v with
  | VUndefined =>
    Rejected (JsTypeError (js "Cannot read properties of undefined"))
  | VJson JNull => Rejected (JsTypeError (js "Cannot read properties of null"))
  | VJson (JObject ms) =>
    Fulfilled match lookup_member k ms with
              | Some x => VJson x
              | None => VUndefined
              end
  | _ => Fulfilled VUndefined
  end.

(** [v[0]] *)
Definition getIndex0 (v : Value) : Outcome Value :=
  match v with
  | VJson (JArray (x :: _)) => Fulfilled (VJson x)
  | VJson (JString (c :: _)) => Fulfilled (VStr [c])
  | _ => getProp v (js "0")
  end.

Fixpoint join (sep : jsstring) (l : list jsstring) : jsstring :=
  match l with
  | [] => []
  | [x] => x
  | x :: r => x ++ sep ++ join sep r
  end.

(** [String(v)] of a parsed value. *)
Fixpoint JValue_toString (v : JValue) : jsstring :=
  match v with
  | JNull => js "null"
  | JBool true => js "true"
  | JBool false => js "false"
  | JNumber l => Number_print l
  | JString s => s
  | JArray l =>
    join (js ",")
         (map (fun x => match x with
                        | JNull => []
                        | _ => JValue_toString x
                        end) l)
  | JObject _ => js "[object Object]"
  end.

Definition toString (v : Value) : jsstring :=
  match v with
  | VUndefined => js "undefined"
  | VJson x => JValue_toString x
  | VNative _ => js "[object Object]"
  end.

Section Programs.

(** The events of a program and the type of the answer to each. *)
Variable E : Type.
Variable Ans : E -> Type.

Inductive Prog (A : Type) : Type :=
| Ret (a : A)
| Throw (x : Exn)
| Vis (e : E) (k : Ans e -> Prog A).

Arguments Ret {A} a.
Arguments Throw {A} x.
Arguments Vis {A} e k.

Fixpoint Prog_bind {A B : Type} (p : Prog A) (f : A -> Prog B) : Prog B :=
  match p with
  | Ret a => f a
  | Throw x => Throw x
  | Vis e k => Vis e (fun a => Prog_bind (k a) f)
  end.

(** [try { p } catch (x) { h x }] *)
Fixpoint try_catch {A : Type} (p : Prog A) (h : Exn -> Prog A) : Prog A :=
  match p with
  | Ret a => Ret a
  | Throw x => h x
  | Vis e k => Vis e (fun a => try_catch (k a) h)
  end.

(** [try { p } finally { f }] *)
Fixpoint try_finally {A : Type} (p : Prog A) (f : Prog unit) : Prog A :=
  match p with
  | Ret a => Prog_bind f (fun _ => Ret a)
  | Throw x => Prog_bind f (fun _ => Throw x)
  | Vis e k => Vis e (fun a => try_finally (k a) f)
  end.

(** An event whose answer is used as it is. *)
Definition trigger (e : E) : Prog (Ans e) := Vis e (fun a => Ret a).

(** [await] on a settled promise: the value, or the rejection thrown. *)
Definition settle {A : Type} (o : Outcome A) : Prog A :=
  match o with
  | Fulfilled a => Ret a
  | Rejected x => Throw x
  end.

(** How a program ends. *)
Inductive Completion (A : Type) : Type :=
| Returned (a : A)
| Threw (x : Exn).

End Programs.

Arguments Prog {E} Ans A.
Arguments Ret {E Ans A} a.
Arguments Throw {E Ans A} x.
Arguments Vis {E Ans A} e k.
Arguments Prog_bind {E Ans A B} p f.
Arguments try_catch {E Ans A} p h.
Arguments try_finally {E Ans A} p f.
Arguments trigger {E} Ans e.
Arguments settle {E Ans A} o.
Arguments Returned {A} a.
Arguments Threw {A} x.

#[export] Instance Monad_Prog (E : Type) (Ans : E -> Type) : Monad (Prog Ans) :=
  {| ret := fun A (a : A) => Ret a;
     bind := fun A B (p : Prog Ans A) (f : A -> Prog Ans B) => Prog_bind p f |}.

(* ================================================================= *)
(** ** The chat component ([ChatInterface.tsx]) *)

Module Chat.

Inductive Role : Type := role_user | role_assistant.

(** [interface Message].  An optional property that is absent reads as
    [VUndefined]. *)
Record Message : Type := {
  msg_id : jsstring;
  msg_role : Role;
  msg_content : Value;
  msg_translation : Value;
  msg_tip : Value
}.

(** [interface Language] *)
Record Language : Type := {
  lang_id : jsstring;
  lang_name : jsstring;
  lang_code : jsstring;
  lang_flag_emoji : jsstring;
  lang_difficulty_level : jsstring
}.

Record AuthUser : Type := { user_id : jsstring }.

(** What the component closes over besides its own state: its props, the
    signed-in user of [useAuth()] and the build-time environment. *)
Record Props : Type := {
  language : Language;
  user : option AuthUser;
  VITE_SUPABASE_URL : jsstring;
  VITE_SUPABASE_ANON_KEY : jsstring
}.

(** The four [useState] cells. *)
Record State : Type := {
  messages : list Message;
  input : jsstring;
  loading : bool;
  conversationId : option jsstring
}.

Definition initialState : State :=
  {| messages := []; input := []; loading := false; conversationId := None |}.

(** *** The record store *)

Record ConversationInsert : Type := {
  ci_user_id : jsstring;
  ci_language_code : jsstring;
  ci_title : jsstring;
  ci_difficulty : jsstring
}.

Record ConversationRow : Type := {
  conv_id : jsstring;
  conv_user_id : jsstring;
  conv_language_code : jsstring;
  conv_title : jsstring;
  conv_difficulty : jsstring;
  conv_message_count : N;
  conv_updated_at : jsstring
}.

Record ConversationUpdate : Type := {
  cu_message_count : N;
  cu_updated_at : jsstring
}.

Record MessageInsert : Type := {
  mi_conversation_id : jsstring;
  mi_role : Role;
  mi_content : Value;
  mi_translation : Value
}.

(** What a request of the store client resolves to: [{ data, error }].
    The client reports a failure, of the network too, as a result with an
    [error]; it rejects only when asked to ([throwOnError]), which the
    component never does.  See [reporting]. *)
Record PostgrestResult (T : Type) : Type := {
  data : option T;
  error : option jsstring
}.
Arguments data {T} _.
Arguments error {T} _.

Record Store : Type := {
  conversations : list ConversationRow;
  messages_table : list MessageInsert
}.

(** *** The inference request *)

Record HistoryItem : Type := { h_role : Role; h_content : Value }.

(** The object given to [JSON.stringify] as the request body. *)
Record ChatRequest : Type := {
  req_messages : list HistoryItem;
  req_languageCode : jsstring;
  req_languageName : jsstring;
  req_difficulty : jsstring
}.

Record RequestInit : Type := {
  method : jsstring;
  headers : list (jsstring * jsstring);
  body : ChatRequest
}.

(** A [fetch] response: [ok] and how [response.json()] settles. *)
Record Response : Type := {
  ok : bool;
  json : Outcome JValue
}.

(** *** Events *)

Inductive Updater : Type :=
| Replace (l : list Message)          (* setMessages(l) *)
| Append (m : Message).               (* setMessages(prev => [...prev, m]) *)

Inductive Event : Type :=
| DateNow                                             (* Date.now() *)
| DateISO                                             (* new Date().toISOString() *)
| SetMessages (u : Updater)
| SetInput (s : jsstring)
| SetLoading (b : bool)
| SetConversationId (i : jsstring)
| ConsoleError (label : jsstring) (x : Exn)
| ConversationsInsert (row : ConversationInsert)      (* .insert(row).select().single() *)
| MessagesInsert (row : MessageInsert)
| ConversationsUpdate (patch : ConversationUpdate) (i : jsstring)  (* .update(patch).eq('id', i) *)
| Fetch (url : jsstring) (init : RequestInit).

Definition Ans (e : Event) : Type :=
  match e with
  | DateNow => N
  | DateISO => jsstring
  | SetMessages _ | SetInput _ | SetLoading _ | SetConversationId _
  | ConsoleError _ _ => unit
  | ConversationsInsert _ => Outcome (PostgrestResult ConversationRow)
  | MessagesInsert _ => Outcome (PostgrestResult unit)
  | ConversationsUpdate _ _ => Outcome (PostgrestResult unit)
  | Fetch _ _ => Outcome Response
  end.

(** The events that are awaited requests to a remote service. *)
Definition awaited (e : Event) : bool :=
  match e with
  | ConversationsInsert _ | MessagesInsert _ | ConversationsUpdate _ _
  | Fetch _ _ => true
  | _ => false
  end.

Definition perform (e : Event) : Prog Ans (Ans e) := trigger Ans e.

(** An event as a statement: its answer is dropped. *)
Definition call (e : Event) : Prog Ans unit := Vis e (fun _ => Ret tt).

(** [await] on a request: the event, then the value it settles to or
    its rejection thrown. *)
Definition await (e : Event) {T : Type} (k : Ans e -> Outcome T) : Prog Ans T :=
  Vis e (fun a => settle (k a)).

Notation "'await!' e" := (await e (fun o => o)) (at level 10, e at level 9).

(** *** The component's functions *)

Definition welcomes : list (jsstring * jsstring) :=
  [ (js "Spanish", js "¡Hola! Soy tu tutor de español. ¡Vamos a practicar juntos!");
    (js "French", js "Bonjour! Je suis votre tuteur de français. Pratiquons ensemble!");
    (js "German", js "Hallo! Ich bin dein Deutsch-Tutor. Lass uns zusammen üben!");
    (js "Hindi", js "नमस्ते! मैं आपका हिंदी शिक्षक हूं। चलिए साथ में अभ्यास करते हैं!");
    (js "Mandarin", js "你好！我是你的中文老师。让我们一起练习吧！");
    (js "Japanese", js "こんにちは！私はあなたの日本語の先生です。一緒に練習しましょう！");
    (js "Italian", js "Ciao! Sono il tuo tutor di italiano. Pratichiamo insieme!");
    (js "Portuguese", js "Olá! Sou seu tutor de português. Vamos praticar juntos!") ].

(** The property names every object literal inherits from
    [Object.prototype]: a lookup of one of them on [welcomes] finds a
    built-in, which is truthy. *)
Definition Object_prototype_keys : list jsstring :=
  map js [ "constructor"; "hasOwnProperty"; "isPrototypeOf";
           "propertyIsEnumerable"; "toLocaleString"; "toString"; "valueOf";
           "__proto__"; "__defineGetter__"; "__defineSetter__";
           "__lookupGetter__"; "__lookupSetter__" ]%string.

Fixpoint assoc (k : jsstring) (l : list (jsstring * jsstring)) : option jsstring :=
  match l with
  | [] => None
  | (k', v) :: r => if jsstring_eqb k k' then Some v else assoc k r
  end.

(** [welcomes[languageName] || 'Hello! Let\'s practice together!'] *)
Definition getWelcomeMessage (languageName : jsstring) : Value :=
  match assoc languageName welcomes with
  | Some s => VStr s
  | None =>
    if existsb (jsstring_eqb languageName) Object_prototype_keys
    then VNative languageName
    else VStr (js "Hello! Let's practice together!")
  end.

Definition welcomeMessage (l : Language) : Message :=
  {| msg_id := js "welcome";
     msg_role := role_assistant;
     msg_content := getWelcomeMessage (lang_name l);
     msg_translation :=
       VStr (js "Hello! I'm your " ++ lang_name l
                ++ js " tutor. Let's practice together!");
     msg_tip := VUndefined |}.

Definition initializeConversation (P : Props) : Prog Ans unit :=
  match user P with
  | None => Ret tt
  | Some u =>
    r <- await! (ConversationsInsert
                  {| ci_user_id := user_id u;
                     ci_language_code := lang_code (language P);
                     ci_title := lang_name (language P) ++ js " Practice";
                     ci_difficulty := lang_difficulty_level (language P) |}) ;;
    match error r, data r with
    | None, Some d =>
      call (SetConversationId (conv_id d)) ;;
      call (SetMessages (Replace [welcomeMessage (language P)]))
    | _, _ => Ret tt
    end
  end.

Definition apologyText : jsstring :=
  js "Sorry, I encountered an error. Please try again.".

Definition apologyMessage (now : N) : Message :=
  {| msg_id := Number_toString now;
     msg_role := role_assistant;
     msg_content := VStr apologyText;
     msg_translation := VStr apologyText;
     msg_tip := VUndefined |}.

Definition userMessage (now : N) (snap : State) : Message :=
  {| msg_id := Number_toString now;
     msg_role := role_user;
     msg_content := VStr (trim (input snap));
     msg_translation := VUndefined;
     msg_tip := VUndefined |}.

Definition conversationHistory (snap : State) : list HistoryItem :=
  map (fun m => {| h_role := msg_role m; h_content := msg_content m |})
      (filter (fun m => negb (jsstring_eqb (msg_id m) (js "welcome")))
              (messages snap)).

(** The guard of [handleSend]:
    [!input.trim() || !conversationId || loading]. *)
Definition blocked (snap : State) : bool :=
  negb (truthy (trim (input snap)))
  || match conversationId snap with
     | Some i => negb (truthy i)
     | None => true
     end
  || loading snap.

(** The exchange with the inference service: the [try] block. *)
Definition exchange (P : Props) (snap : State) (i : jsstring) (um : Message)
  : Prog Ans unit :=
  let apiUrl := VITE_SUPABASE_URL P ++ js "/functions/v1/ai-chat" in
  response <- await! (Fetch apiUrl
    {| method := js "POST";
       headers :=
         [ (js "Authorization", js "Bearer " ++ VITE_SUPABASE_ANON_KEY P);
           (js "Content-Type", js "application/json") ];
       body :=
         {| req_messages :=
              conversationHistory snap
              ++ [ {| h_role := role_user; h_content := msg_content um |} ];
            req_languageCode := lang_code (language P);
            req_languageName := lang_name (language P);
            req_difficulty := lang_difficulty_level (language P) |} |}) ;;
  if negb (ok response) then Throw (JsError (js "Failed to get AI response"))
  else
    aiData <- settle (json response) ;;
    now <- perform DateNow ;;
    r <- settle (getProp (VJson aiData) (js "response")) ;;
    t <- settle (getProp (VJson aiData) (js "translation")) ;;
    p <- settle (getProp (VJson aiData) (js "tip")) ;;
    let assistantMessage :=
      {| msg_id := Number_toString now; msg_role := role_assistant;
         msg_content := r; msg_translation := t; msg_tip := p |} in
    call (SetMessages (Append assistantMessage)) ;;
    await! (MessagesInsert
             {| mi_conversation_id := i; mi_role := role_assistant;
                mi_content := msg_content assistantMessage;
                mi_translation := msg_translation assistantMessage |}) ;;
    iso <- perform DateISO ;;
    await! (ConversationsUpdate
             {| cu_message_count := N.of_nat (List.length (messages snap)) + 2;
                cu_updated_at := iso |} i) ;;
    Ret tt.

(** An updater that [setMessages] was given and that reads the clock when
    it runs: the turn it appends, from the time it reads. *)
Definition Queued : Type := option (N -> Message).

(** The [catch] block.  What it gives [setMessages] is an updater that
    builds the apology, and reads the clock, when React runs it: at the
    render that follows the handler, after the [finally] block.  The block
    yields the updater it has queued. *)
Definition recover (x : Exn) : Prog Ans Queued :=
  call (ConsoleError (js "Error sending message:") x) ;;
  Ret (Some apologyMessage).

(** The render that follows the handler: React runs the queued updater. *)
Definition rendering (queued : Queued) : Prog Ans unit :=
  match queued with
  | None => Ret tt
  | Some build =>
    now <- perform DateNow ;;
    call (SetMessages (Append (build now)))
  end.

(** [handleSend], as the closure of the render that saw [snap], followed
    by the render it causes.  The updaters of the other [setMessages]
    calls read nothing but the turn sequence, so they are applied where
    they are queued. *)
Definition handleSend (P : Props) (snap : State) : Prog Ans unit :=
  if blocked snap then Ret tt
  else
    match conversationId snap with
    | None => Ret tt
    | Some i =>
      now <- perform DateNow ;;
      let um := userMessage now snap in
      call (SetMessages (Append um)) ;;
      call (SetInput []) ;;
      call (SetLoading true) ;;
      await! (MessagesInsert
               {| mi_conversation_id := i; mi_role := role_user;
                  mi_content := msg_content um;
                  mi_translation := VUndefined |}) ;;
      queued <- try_finally (try_catch (exchange P snap i um ;; Ret None) recover)
                            (call (SetLoading false)) ;;
      rendering queued
    end.

(** *** Running the component *)

(** The component state and the record store. *)
Record World : Type := {
  state : State;
  store : Store
}.

Definition initialWorld (db : Store) : World :=
  {| state := initialState; store := db |}.

Definition apply_updater (u : Updater) (ms : list Message) : list Message :=
  match u with
  | Replace l => l
  | Append m => ms ++ [m]
  end.

(** What an event does to the component state. *)
Definition set_state (e : Event) (s : State) : State :=
  match e with
  | SetMessages u =>
    {| messages := apply_updater u (messages s); input := input s;
       loading := loading s; conversationId := conversationId s |}
  | SetInput v =>
    {| messages := messages s; input := v;
       loading := loading s; conversationId := conversationId s |}
  | SetLoading b =>
    {| messages := messages s; input := input s;
       loading := b; conversationId := conversationId s |}
  | SetConversationId i =>
    {| messages := messages s; input := input s;
       loading := loading s; conversationId := Some i |}
  | _ => s
  end.

(** A request resolved without an [error]. *)
Definition acknowledged {T : Type} (o : Outcome (PostgrestResult T)) : bool :=
  match o with
  | Fulfilled r => match error r with None => true | Some _ => false end
  | Rejected _ => false
  end.

Definition update_row (patch : ConversationUpdate) (i : jsstring)
           (r : ConversationRow) : ConversationRow :=
  if jsstring_eqb (conv_id r) i
  then {| conv_id := conv_id r; conv_user_id := conv_user_id r;
          conv_language_code := conv_language_code r;
          conv_title := conv_title r; conv_difficulty := conv_difficulty r;
          conv_message_count := cu_message_count patch;
          conv_updated_at := cu_updated_at patch |}
  else r.

(** What a request does to the store, given how it was answered: a write
    that was not acknowledged leaves the store as it was. *)
Definition set_store (e : Event) : Ans e -> Store -> Store :=
  match e as e0 return Ans e0 -> Store -> Store with
  | ConversationsInsert _ => fun a db =>
    match a with
    | Fulfilled {| data := Some d; error := None |} =>
      {| conversations := conversations db ++ [d];
         messages_table := messages_table db |}
    | _ => db
    end
  | MessagesInsert row => fun a db =>
    if acknowledged a
    then {| conversations := conversations db;
            messages_table := messages_table db ++ [row] |}
    else db
  | ConversationsUpdate patch i => fun a db =>
    if acknowledged a
    then {| conversations := map (update_row patch i) (conversations db);
            messages_table := messages_table db |}
    else db
  | _ => fun _ db => db
  end.

Definition step (w : World) (e : Event) (a : Ans e) : World :=
  {| state := set_state e (state w);
     store := set_store e a (store w) |}.

(** An answer, whatever its event. *)
Inductive Answer : Type :=
| AUnit
| ANumber (n : N)
| AText (s : jsstring)
| ACreated (o : Outcome (PostgrestResult ConversationRow))
| AWritten (o : Outcome (PostgrestResult unit))
| AFetched (o : Outcome Response).

Definition answer_of (e : Event) : Ans e -> Answer :=
  match e as e0 return Ans e0 -> Answer with
  | DateNow => ANumber
  | DateISO => AText
  | SetMessages _ | SetInput _ | SetLoading _ | SetConversationId _
  | ConsoleError _ _ => fun _ => AUnit
  | ConversationsInsert _ => ACreated
  | MessagesInsert _ => AWritten
  | ConversationsUpdate _ _ => AWritten
  | Fetch _ _ => AFetched
  end.

(** The log of a call: its events in order, each with its answer. *)
Definition Log : Type := list (Event * Answer).

Definition events (l : Log) : list Event := map fst l.

(** The environment of one call answers the event issued at a position
    of the call's log: the clock, and how each request settles. *)
Definition Env : Type := nat -> forall e : Event, Ans e.

Record Run (A : Type) : Type := {
  completion : Completion A;
  final : World;
  log : Log
}.
Arguments completion {A} _.
Arguments final {A} _.
Arguments log {A} _.

Fixpoint run_from (env : Env) {A : Type} (p : Prog Ans A) (w : World) (l : Log)
  : Run A :=
  match p with
  | Ret a => {| completion := Returned a; final := w; log := l |}
  | Throw x => {| completion := Threw x; final := w; log := l |}
  | Vis e k =>
    let a := env (List.length l) e in
    run_from env (k a) (step w e a) (l ++ [(e, answer_of e a)])
  end.

Definition run (env : Env) {A : Type} (p : Prog Ans A) (w : World) : Run A :=
  run_from env p w [].

(** The world and the log at the moment a call waits for its [n]-th
    awaited request (counting from 0), the request not yet issued;
    [None] when the call ends before. *)
Fixpoint suspended_from (env : Env) (n : nat) {A : Type} (p : Prog Ans A)
         (w : World) (l : Log) : option (World * Log) :=
  match p with
  | Ret _ => None
  | Throw _ => None
  | Vis e k =>
    let a := env (List.length l) e in
    if awaited e
    then match n with
         | O => Some (w, l)
         | S n' =>
           suspended_from env n' (k a) (step w e a) (l ++ [(e, answer_of e a)])
         end
    else suspended_from env n (k a) (step w e a) (l ++ [(e, answer_of e a)])
  end.

Definition suspended (env : Env) (n : nat) {A : Type} (p : Prog Ans A) (w : World)
  : option (World * Log) :=
  suspended_from env n p w [].

(** [Initialize]: the effect of mounting the component. *)
Definition Initialize (P : Props) (env : Env) (w : World) : Run unit :=
  run env (initializeConversation P) w.

(** [Submit]: the send button or the Enter key.  React renders between
    two input events, so the handler that runs is the closure of the
    latest render: the state it closes over is the state at the time of
    the call. *)
Definition Submit (P : Props) (env : Env) (w : World) : Run unit :=
  run env (handleSend P (state w)) w.

(** Typing into the input box: [onChange] sets [input]. *)
Definition typeText (text : jsstring) (w : World) : World :=
  {| state := set_state (SetInput text) (state w); store := store w |}.

(** *** Reading a log *)

Definition appended (l : Log) : list Message :=
  flat_map (fun e => match e with
                     | SetMessages (Append m) => [m]
                     | _ => []
                     end) (events l).

Definition inserted (l : Log) : list MessageInsert :=
  flat_map (fun e => match e with
                     | MessagesInsert row => [row]
                     | _ => []
                     end) (events l).

Definition fetched (l : Log) : list (jsstring * RequestInit) :=
  flat_map (fun e => match e with
                     | Fetch url init => [(url, init)]
                     | _ => []
                     end) (events l).

Definition requests (l : Log) : list Event := filter awaited (events l).

Definition updated (l : Log) : list ConversationUpdate :=
  flat_map (fun e => match e with
                     | ConversationsUpdate patch _ => [patch]
                     | _ => []
                     end) (events l).

(** How the creations of a conversation were answered. *)
Definition created (l : Log) : list (Outcome (PostgrestResult ConversationRow)) :=
  flat_map (fun ea => match snd ea with
                      | ACreated o => [o]
                      | _ => []
                      end) l.

(** A log up to the moment its [catch] block starts (its first
    [console.error]), and from that moment on. *)
Fixpoint beforeCatch (l : Log) : Log :=
  match l with
  | [] => []
  | (ConsoleError _ _, _) :: _ => []
  | ea :: r => ea :: beforeCatch r
  end.

Fixpoint fromCatch (l : Log) : Log :=
  match l with
  | [] => []
  | (ConsoleError _ _, _) :: _ => l
  | _ :: r => fromCatch r
  end.

(** How the inference calls of a log were answered. *)
Definition replies (l : Log) : list (Outcome Response) :=
  flat_map (fun ea => match snd ea with
                      | AFetched o => [o]
                      | _ => []
                      end) l.

(** The writes of a log, each with how it settled. *)
Definition writes (l : Log) : list (Event * Outcome (PostgrestResult unit)) :=
  flat_map (fun ea => match snd ea with
                      | AWritten o => [(fst ea, o)]
                      | _ => []
                      end) l.

Definition rejected {T : Type} (o : Outcome T) : bool :=
  match o with
  | Rejected _ => true
  | Fulfilled _ => false
  end.

Definition isUserInsert (e : Event) : bool :=
  match e with
  | MessagesInsert {| mi_role := role_user |} => true
  | _ => false
  end.

(** The insert of the user turn was rejected: its [await] threw. *)
Definition userInsertRejected (l : Log) : bool :=
  existsb (fun eo => isUserInsert (fst eo) && rejected (snd eo)) (writes l).

(** The row the component sends for a turn. *)
Definition row_of (i : jsstring) (m : Message) : MessageInsert :=
  {| mi_conversation_id := i; mi_role := msg_role m;
     mi_content := msg_content m; mi_translation := msg_translation m |}.

(** How an inference call can fail: the request is rejected, the status
    is not a success, the body is not JSON, or the body is [null] (its
    properties cannot be read). *)
Definition inferenceFails (o : Outcome Response) : bool :=
  match o with
  | Rejected _ => true
  | Fulfilled r =>
    negb (ok r)
    || match json r with
       | Rejected _ => true
       | Fulfilled JNull => true
       | Fulfilled _ => false
       end
  end.

(** The inference call of the log failed. *)
Definition inferenceFailed (l : Log) : bool := existsb inferenceFails (replies l).

(** A call that did nothing. *)
Definition idle (w : World) : Run unit :=
  {| completion := Returned tt; final := w; log := [] |}.

(** [env], except that the writes at the positions [bad] resolve with an
    [error]. *)
Definition withRefusals (bad : nat -> bool) (why : jsstring) (env : Env) : Env :=
  fun n e =>
    match e as e0 return Ans e0 -> Ans e0 with
    | MessagesInsert _ => fun a =>
      if bad n then Fulfilled {| data := None; error := Some why |} else a
    | ConversationsUpdate _ _ => fun a =>
      if bad n then Fulfilled {| data := None; error := Some why |} else a
    | _ => fun a => a
    end (env n e).

(** The store answers every write of [env] with a result, [{ data, error }]
    with or without an [error]: none of them is rejected. *)
Definition reporting (env : Env) : Prop :=
  (forall n row, rejected (env n (MessagesInsert row)) = false)
  /\ (forall n patch i, rejected (env n (ConversationsUpdate patch i)) = false).

(** [env], except that every write is acknowledged. *)
Definition acknowledging (env : Env) : Env :=
  fun n e =>
    match e as e0 return Ans e0 -> Ans e0 with
    | MessagesInsert _ => fun _ => Fulfilled {| data := None; error := None |}
    | ConversationsUpdate _ _ => fun _ => Fulfilled {| data := None; error := None |}
    | _ => fun a => a
    end (env n e).

(** *** Environments for the examples *)

(** The clock reads [t] plus the position; the store answers [created]
    to the creation of a conversation and [written n] to the write at
    position [n]; the inference service answers [reply]. *)
Definition answering (t : N) (iso : jsstring)
           (created : Outcome (PostgrestResult ConversationRow))
           (written : nat -> Outcome (PostgrestResult unit))
           (reply : Outcome Response) : Env :=
  fun n e =>
    match e as e0 return Ans e0 with
    | DateNow => t + N.of_nat n
    | DateISO => iso
    | SetMessages _ => tt
    | SetInput _ => tt
    | SetLoading _ => tt
    | SetConversationId _ => tt
    | ConsoleError _ _ => tt
    | ConversationsInsert _ => created
    | MessagesInsert _ => written n
    | ConversationsUpdate _ _ => written n
    | Fetch _ _ => reply
    end.

Definition ack {T : Type} : Outcome (PostgrestResult T) :=
  Fulfilled {| data := None; error := None |}.

Definition refused {T : Type} (why : jsstring) : Outcome (PostgrestResult T) :=
  Fulfilled {| data := None; error := Some why |}.

(** The row the database creates: the inserted columns, the given [id],
    and the column defaults of the schema ([message_count] 0). *)
Definition createdRow (i now : jsstring) (P : Props) (u : AuthUser) : ConversationRow :=
  {| conv_id := i;
     conv_user_id := user_id u;
     conv_language_code := lang_code (language P);
     conv_title := lang_name (language P) ++ js " Practice";
     conv_difficulty := lang_difficulty_level (language P);
     conv_message_count := 0;
     conv_updated_at := now |}.

Definition spanish : Language :=
  {| lang_id := js "7f0c"; lang_name := js "Spanish"; lang_code := js "es";
     lang_flag_emoji := js "ES"; lang_difficulty_level := js "Beginner" |}.

Definition learner : AuthUser := {| user_id := js "u-1" |}.

Definition demo : Props :=
  {| language := spanish; user := Some learner;
     VITE_SUPABASE_URL := js "https://demo.supabase.co";
     VITE_SUPABASE_ANON_KEY := js "anon" |}.

Definition emptyStore : Store := {| conversations := []; messages_table := [] |}.

Definition holaReply : JValue :=
  JObject [ (js "response", JString (js "¡Hola! ¿Cómo estás?"));
            (js "translation", JString (js "Hello! How are you?"));
            (js "tip", JString (js "Use formal greetings")) ].

Definition success (v : JValue) : Outcome Response :=
  Fulfilled {| ok := true; json := Fulfilled v |}.

(** The store creates the conversation [c-1]. *)
Definition creating : Env :=
  answering 1700000000000 (js "2023-11-14T22:13:20.000Z")
            (Fulfilled {| data := Some (createdRow (js "c-1") (js "2023-11-14T22:13:20.000Z") demo learner);
                          error := None |})
            (fun _ => ack) (success holaReply).

(** Everything succeeds and the tutor answers [holaReply]. *)
Definition steady : Env :=
  answering 1700000001000 (js "2023-11-14T22:13:21.000Z")
            (refused (js "unused")) (fun _ => ack) (success holaReply).

(** The inference service is unreachable. *)
Definition offline : Env :=
  answering 1700000001000 (js "2023-11-14T22:13:21.000Z")
            (refused (js "unused")) (fun _ => ack)
            (Rejected (JsTypeError (js "Failed to fetch"))).

Definition mounted : World := final (Initialize demo creating (initialWorld emptyStore)).

End Chat.

(* ================================================================= *)
(** ** The [ai-chat] edge function ([supabase/functions/ai-chat/index.ts]) *)

Module Edge.

Definition corsHeaders : list (jsstring * jsstring) :=
  [ (js "Access-Control-Allow-Origin", js "*");
    (js "Access-Control-Allow-Methods", js "GET, POST, PUT, DELETE, OPTIONS");
    (js "Access-Control-Allow-Headers",
     js "Content-Type, Authorization, X-Client-Info, Apikey") ].

(** [interface Message] *)
Record Message : Type := { role : jsstring; content : Value }.

(** [interface RequestBody] *)
Record RequestBody : Type := {
  messages : list Message;
  languageCode : jsstring;
  languageName : jsstring;
  difficulty : jsstring
}.

(** The incoming request: its method and how [req.json()], read as the
    [RequestBody] the handler declares, settles.  A body that is [null],
    which the handler cannot destructure, is a rejection with that
    [TypeError]; a body of another shape is not a request of the model. *)
Record Request : Type := {
  req_method : jsstring;
  req_json : Outcome RequestBody
}.

Record Response : Type := {
  status : N;
  headers : list (jsstring * jsstring);
  body : option JValue                 (* the document sent, if any *)
}.

Definition getSystemPrompt (languageName difficulty : jsstring) : jsstring :=
  join [10]
    [ js "You are a friendly and encouraging language tutor teaching "
         ++ languageName ++ js ". Your role is to:";
      [];
      js "1. Respond naturally in " ++ languageName ++ js " appropriate for a "
         ++ difficulty ++ js " level learner";
      js "2. Keep your responses conversational and engaging";
      js "3. Provide helpful corrections when the user makes mistakes";
      js "4. Encourage the user to practice more";
      js "5. Use simple vocabulary for beginners, more complex for intermediate/advanced";
      js "6. Include cultural context when relevant";
      [];
      js "Format your responses as a JSON object with this structure:";
      js "{";
      jsq "  'response': 'Your response in " ++ languageName ++ jsq "',";
      jsq "  'translation': 'English translation of your response',";
      jsq "  'tip': 'Optional helpful tip about grammar, vocabulary, or culture (in English, keep it brief)'";
      js "}";
      [];
      js "Keep responses concise (2-4 sentences) to encourage back-and-forth conversation." ].

(** The body of the request to the completion API. *)
Record CompletionRequest : Type := {
  model : jsstring;
  api_messages : list Message;
  temperature : jsstring;              (* the literal 0.7 *)
  max_tokens : N
}.

Record UpstreamInit : Type := {
  up_method : jsstring;
  up_headers : list (jsstring * jsstring);
  up_body : CompletionRequest
}.

Record UpstreamResponse : Type := {
  up_ok : bool;
  up_statusText : jsstring;
  up_text : Outcome jsstring;          (* response.text() *)
  up_json : Outcome JValue             (* response.json() *)
}.

Inductive Event : Type :=
| EnvGet (name : jsstring)                           (* Deno.env.get(name) *)
| OpenAIFetch (url : jsstring) (init : UpstreamInit)
| ConsoleErrorText (label : jsstring) (detail : jsstring)
| ConsoleErrorExn (label : jsstring) (x : Exn).

Definition Ans (e : Event) : Type :=
  match e with
  | EnvGet _ => option jsstring
  | OpenAIFetch _ _ => Outcome UpstreamResponse
  | ConsoleErrorText _ _ | ConsoleErrorExn _ _ => unit
  end.

Definition perform (e : Event) : Prog Ans (Ans e) := trigger Ans e.

Definition call (e : Event) : Prog Ans unit := Vis e (fun _ => Ret tt).

Definition await (e : Event) {T : Type} (k : Ans e -> Outcome T) : Prog Ans T :=
  Vis e (fun a => settle (k a)).

(** [data.choices[0].message.content] *)
Definition firstChoiceContent (data : JValue) : Outcome Value :=
  match getProp (VJson data) (js "choices") with
  | Rejected x => Rejected x
  | Fulfilled choices =>
    match getIndex0 choices with
    | Rejected x => Rejected x
    | Fulfilled choice =>
      match getProp choice (js "message") with
      | Rejected x => Rejected x
      | Fulfilled message => getProp message (js "content")
      end
    end
  end.

(** The object of the [catch] branch, as [JSON.stringify] writes it: a
    member whose value is [undefined] is left out. *)
Definition fallback (aiResponse : Value) : JValue :=
  JObject
    (match aiResponse with
     | VJson v => [ (js "response", JSON_stringify v) ]
     | _ => []
     end
     ++ [ (js "translation", JString (js "Translation not available"));
          (js "tip", JNull) ]).

(** [JSON.stringify(parsedResponse)], where [parsedResponse] is
    [JSON.parse(aiResponse)], whose argument is converted to a string
    first, or the object of the [catch] branch when the parse throws. *)
Definition parsedResponse (aiResponse : Value) : JValue :=
  match JSON_parse (toString aiResponse) with
  | Some v => JSON_stringify v
  | None => fallback aiResponse
  end.

Definition jsonHeaders : list (jsstring * jsstring) :=
  corsHeaders ++ [ (js "Content-Type", js "application/json") ].

(** [error.message || "An error occurred"] *)
Definition errorBody (x : Exn) : JValue :=
  JObject
    [ (js "error",
       JString (if truthy (exn_message x) then exn_message x
                else js "An error occurred")) ].

(** The handler given to [Deno.serve]. *)
Definition serve (req : Request) : Prog Ans Response :=
  if jsstring_eqb (req_method req) (js "OPTIONS")
  then Ret {| status := 200; headers := corsHeaders; body := None |}
  else
    try_catch
      (b <- settle (req_json req) ;;
       openAIKey <- perform (EnvGet (js "OPENAI_API_KEY")) ;;
       match openAIKey with
       | Some (c :: k) =>
         let systemPrompt := getSystemPrompt (languageName b) (difficulty b) in
         let apiMessages :=
           {| role := js "system"; content := VStr systemPrompt |}
             :: messages b in
         response <- await (OpenAIFetch
           (js "https://api.openai.com/v1/chat/completions")
           {| up_method := js "POST";
              up_headers :=
                [ (js "Authorization", js "Bearer " ++ c :: k);
                  (js "Content-Type", js "application/json") ];
              up_body :=
                {| model := js "gpt-4o-mini";
                   api_messages := apiMessages;
                   temperature := js "0.7";
                   max_tokens := 500 |} |}) (fun o => o) ;;
         if negb (up_ok response)
         then
           error <- settle (up_text response) ;;
           call (ConsoleErrorText (js "OpenAI API error:") error) ;;
           Throw (JsError (js "OpenAI API error: " ++ up_statusText response))
         else
           data <- settle (up_json response) ;;
           aiResponse <- settle (firstChoiceContent data) ;;
           Ret {| status := 200;
                  headers := jsonHeaders;
                  body := Some (parsedResponse aiResponse) |}
       | _ => Throw (JsError (js "OpenAI API key not configured"))
       end)
      (fun error =>
         call (ConsoleErrorExn (js "Error in ai-chat function:") error) ;;
         Ret {| status := 500;
                headers := jsonHeaders;
                body := Some (errorBody error) |}).

(** The environment of the function: its variables and the completion
    API. *)
Definition Env : Type := forall e : Event, Ans e.

Fixpoint run (env : Env) {A : Type} (p : Prog Ans A) : Completion A :=
  match p with
  | Ret a => Returned a
  | Throw x => Threw x
  | Vis e k => run env (k (env e))
  end.

(** An upstream reply that succeeds with [raw] as the content of its
    first choice. *)
Definition completion (raw : jsstring) : UpstreamResponse :=
  {| up_ok := true;
     up_statusText := js "OK";
     up_text := Fulfilled [];
     up_json :=
       Fulfilled
         (JObject
            [ (js "choices",
               JArray
                 [ JObject
                     [ (js "message",
                        JObject [ (js "role", JString (js "assistant"));
                                  (js "content", JString raw) ]) ] ]) ]) |}.

Definition replying (key : jsstring) (raw : jsstring) : Env :=
  fun e =>
    match e as e0 return Ans e0 with
    | EnvGet _ => Some key
    | OpenAIFetch _ _ => Fulfilled (completion raw)
    | ConsoleErrorText _ _ => tt
    | ConsoleErrorExn _ _ => tt
    end.

End Edge.

(** What the browser's [fetch] makes of the function's response. *)
Definition asFetched (r : Edge.Response) : Chat.Response :=
  {| Chat.ok := (200 <=? Edge.status r) && (Edge.status r <=? 299);
     Chat.json :=
       match Edge.body r with
       | Some v => Fulfilled v
       | None => Rejected (JsSyntaxError (js "Unexpected end of JSON input"))
       end |}.


(* ================================================================= *)
(** ** What the claims are stated with *)

(** A string made of white space only (the empty string included). *)
Definition whitespaceOnly (s : jsstring) : bool := forallb isWhiteSpace s.

(** A parsed reply that has the structure the tutor is asked for:
    an object whose [response] and [translation] are strings and whose
    [tip], when present, is a string. *)
Definition structured (v : JValue) : bool :=
  match v with
  | JObject ms =>
    match lookup_member (js "response") ms, lookup_member (js "translation") ms with
    | Some (JString _), Some (JString _) =>
      match lookup_member (js "tip") ms with
      | None => true
      | Some (JString _) => true
      | Some _ => false
      end
    | _, _ => false
    end
  | _ => false
  end.

(** A raw reply that parses as the structured object. *)
Definition parseableAsStructured (raw : jsstring) : bool :=
  match JSON_parse raw with
  | Some v => structured v
  | None => false
  end.

(** The worlds a session can be in: the component is mounted, the user
    types, and calls of [Initialize] and [Submit] run to their end. *)
Inductive reachable (P : Chat.Props) : Chat.World -> Prop :=
| reach_mount db : reachable P (Chat.initialWorld db)
| reach_type w text : reachable P w -> reachable P (Chat.typeText text w)
| reach_init w env :
    reachable P w -> reachable P (Chat.final (Chat.Initialize P env w))
| reach_submit w env :
    reachable P w -> reachable P (Chat.final (Chat.Submit P env w)).

(** The turns of a session that are not the greeting. *)
Definition afterGreeting (ms : list Chat.Message) : list Chat.Message :=
  match ms with
  | [] => []
  | _ :: r => r
  end.

(** A turn generated locally: the greeting, or an apology. *)
Definition synthetic (m : Chat.Message) : bool :=
  jsstring_eqb (Chat.msg_id m) (js "welcome")
  || match Chat.msg_role m, Chat.msg_content m, Chat.msg_translation m, Chat.msg_tip m with
     | Chat.role_assistant, VJson (JString c), VJson (JString t), VUndefined =>
       jsstring_eqb c Chat.apologyText && jsstring_eqb t Chat.apologyText
     | _, _, _, _ => false
     end.

Definition realTurns (ms : list Chat.Message) : list Chat.Message :=
  filter (fun m => negb (synthetic m)) ms.

Definition reduced (m : Chat.Message) : Chat.HistoryItem :=
  {| Chat.h_role := Chat.msg_role m; Chat.h_content := Chat.msg_content m |}.

(** *** The scenarios of the examples *)

(** The session of the language [spanish] is mounted and the learner has
    typed [Hola]. *)
Definition holaTyped : Chat.World := Chat.typeText (js "Hola") Chat.mounted.

(** ... and sent it, everything succeeding. *)
Definition holaSent : Chat.Run unit := Chat.Submit Chat.demo Chat.steady holaTyped.

(** ... or sent it while the inference service was unreachable, and then
    typed and sent [Adios], everything succeeding. *)
Definition holaFailed : Chat.Run unit := Chat.Submit Chat.demo Chat.offline holaTyped.

Definition adiosTyped : Chat.World := Chat.typeText (js "Adios") (Chat.final holaFailed).

Definition adiosSent : Chat.Run unit := Chat.Submit Chat.demo Chat.steady adiosTyped.

Definition isUserTurn (m : Chat.Message) : bool :=
  match Chat.msg_role m with
  | Chat.role_user => true
  | Chat.role_assistant => false
  end.

Definition notWelcome (m : Chat.Message) : bool :=
  negb (jsstring_eqb (Chat.msg_id m) (js "welcome")).

(** Either there is no conversation yet, or the first turn is the
    greeting and no later turn bears its identifier. *)
Definition greeted (P : Chat.Props) (st : Chat.State) : Prop :=
  Chat.conversationId st = None
  \/ exists rest,
      Chat.messages st = Chat.welcomeMessage (Chat.language P) :: rest
      /\ forallb notWelcome rest = true.

(** The history of a request. *)
Definition historyOf (ui : jsstring * Chat.RequestInit) : list Chat.HistoryItem :=
  Chat.req_messages (Chat.body (snd ui)).

(** A request to the function that passes its first checks. *)
Definition postRequest : Edge.Request :=
  {| Edge.req_method := js "POST";
     Edge.req_json :=
       Fulfilled {| Edge.messages :=
                      [ {| Edge.role := js "user"; Edge.content := VStr (js "Hola") |} ];
                    Edge.languageCode := js "es";
                    Edge.languageName := js "Spanish";
                    Edge.difficulty := js "Beginner" |} |}.

(* ================================================================= *)
(** ** The rest of the code *)

(** *** The chat component: keyboard and buttons *)

(** The fields of a [React.KeyboardEvent] the handler reads. *)
Record KeyboardEvent : Type := {
  key : jsstring;
  shiftKey : bool
}.

(** What [handleKeyPress] does with an event: whether it prevents the
    default action, and the call of [handleSend] it starts (it does not
    await it), if any. *)
Record KeyHandled : Type := {
  defaultPrevented : bool;
  started : option (Prog Chat.Ans unit)
}.

Definition handleKeyPress (P : Chat.Props) (snap : Chat.State) (e : KeyboardEvent)
  : KeyHandled :=
  if jsstring_eqb (key e) (js "Enter") && negb (shiftKey e)
  then {| defaultPrevented := true; started := Some (Chat.handleSend P snap) |}
  else {| defaultPrevented := false; started := None |}.

(** The [disabled] attribute of the text input: [loading]. *)
Definition inputDisabled (st : Chat.State) : bool := Chat.loading st.

(** The [disabled] attribute of the send button:
    [loading || !input.trim()]. *)
Definition sendDisabled (st : Chat.State) : bool :=
  Chat.loading st || negb (truthy (trim (Chat.input st))).

(** *** More readings of a log *)

(** The rows the updates of a log are addressed to. *)
Definition updatedIds (l : Chat.Log) : list jsstring :=
  flat_map (fun e => match e with
                     | Chat.ConversationsUpdate _ i => [i]
                     | _ => []
                     end) (Chat.events l).

Inductive RequestKind : Type := KCreate | KInsert | KFetch | KUpdate.

(** The requests of a log, by kind, in order. *)
Definition requestKinds (l : Chat.Log) : list RequestKind :=
  flat_map (fun e => match e with
                     | Chat.ConversationsInsert _ => [KCreate]
                     | Chat.MessagesInsert _ => [KInsert]
                     | Chat.Fetch _ _ => [KFetch]
                     | Chat.ConversationsUpdate _ _ => [KUpdate]
                     | _ => []
                     end) (Chat.events l).

(** [v.k] where [v] is not [null]. *)
Definition member (v : JValue) (k : jsstring) : Value :=
  match getProp (VJson v) k with
  | Fulfilled x => x
  | Rejected _ => VUndefined
  end.

(** The assistant turn the component builds from a parsed reply. *)
Definition replyTurn (now : N) (aiData : JValue) : Chat.Message :=
  {| Chat.msg_id := Number_toString now;
     Chat.msg_role := Chat.role_assistant;
     Chat.msg_content := member aiData (js "response");
     Chat.msg_translation := member aiData (js "translation");
     Chat.msg_tip := member aiData (js "tip") |}.

(** The creation of the conversation succeeded with the row [d]. *)
Definition createdWith (d : Chat.ConversationRow) (l : Chat.Log) : Prop :=
  Chat.created l = [Fulfilled {| Chat.data := Some d; Chat.error := None |}].

(** What a Submit may change of a conversation row: its counter and the
    time of its last update, and only if it is the row [i]. *)
Definition sameButCounter (i : jsstring) (old new : Chat.ConversationRow) : Prop :=
  Chat.conv_id new = Chat.conv_id old
  /\ Chat.conv_user_id new = Chat.conv_user_id old
  /\ Chat.conv_language_code new = Chat.conv_language_code old
  /\ Chat.conv_title new = Chat.conv_title old
  /\ Chat.conv_difficulty new = Chat.conv_difficulty old
  /\ (Chat.conv_id old <> i -> new = old).

(** A text as [handleSend] keeps it of what was typed: not empty, with no
    white space at either end, and the typed text is it between two runs
    of white space. *)
Definition cleanTextOf (typed : jsstring) (v : Value) : Prop :=
  exists c r p q,
    v = VStr (c :: r)
    /\ isWhiteSpace c = false
    /\ isWhiteSpace (last (c :: r) c) = false
    /\ typed = p ++ (c :: r) ++ q
    /\ whitespaceOnly p = true
    /\ whitespaceOnly q = true.

(** The inference call of the log was answered with a success whose body
    parses to [v]. *)
Definition repliedWith (v : JValue) (l : Chat.Log) : Prop :=
  exists resp,
    Chat.replies l = [Fulfilled resp]
    /\ Chat.ok resp = true
    /\ Chat.json resp = Fulfilled v.

(** *** The edge function: its events *)

Fixpoint edgeEvents (env : Edge.Env) {A : Type} (p : Prog Edge.Ans A)
  : list Edge.Event :=
  match p with
  | Ret _ => []
  | Throw _ => []
  | Vis e k => e :: edgeEvents env (k (env e))
  end.

Definition upstreamCalls (es : list Edge.Event) : list (jsstring * Edge.UpstreamInit) :=
  flat_map (fun e => match e with
                     | Edge.OpenAIFetch url init => [(url, init)]
                     | _ => []
                     end) es.

Definition envReads (es : list Edge.Event) : list jsstring :=
  flat_map (fun e => match e with
                     | Edge.EnvGet name => [name]
                     | _ => []
                     end) es.

(** *** The component served by the function *)

Definition roleName (r : Chat.Role) : jsstring :=
  match r with
  | Chat.role_user => js "user"
  | Chat.role_assistant => js "assistant"
  end.

(** A value after [JSON.stringify] and [JSON.parse]: what is not JSON is
    left out of its object and reads as [undefined]. *)
Definition onTheWire (v : Value) : Value :=
  match v with
  | VJson x => VJson x
  | _ => VUndefined
  end.

(** The request the function receives for a [fetch] of the component. *)
Definition wire (init : Chat.RequestInit) : Edge.Request :=
  {| Edge.req_method := Chat.method init;
     Edge.req_json :=
       Fulfilled
         {| Edge.messages :=
              map (fun h => {| Edge.role := roleName (Chat.h_role h);
                               Edge.content := onTheWire (Chat.h_content h) |})
                  (Chat.req_messages (Chat.body init));
            Edge.languageCode := Chat.req_languageCode (Chat.body init);
            Edge.languageName := Chat.req_languageName (Chat.body init);
            Edge.difficulty := Chat.req_difficulty (Chat.body init) |} |}.

(** How the [fetch] settles when the function, in the environment [eenv],
    serves it. *)
Definition servedBy (eenv : Edge.Env) (init : Chat.RequestInit) : Outcome Chat.Response :=
  match Edge.run eenv (Edge.serve (wire init)) with
  | Returned r => Fulfilled (asFetched r)
  | Threw x => Rejected x
  end.

(** The environment [base] of the component, with the inference service
    played by the function. *)
Definition viaEdge (eenv : Edge.Env) (base : Chat.Env) : Chat.Env :=
  fun n e =>
    match e as e0 return Chat.Ans e0 -> Chat.Ans e0 with
    | Chat.Fetch _ init => fun _ => servedBy eenv init
    | _ => fun a => a
    end (base n e).

(** *** The application shell ([App.tsx]) *)

Inductive AuthMode : Type := login | signup.

(** [interface Language] of the shell: the one of the chat component and
    a description. *)
Record AppLanguage : Type := {
  chatLanguage : Chat.Language;
  description : jsstring
}.

(** What [AppContent] reads: [useAuth()] and its two state cells. *)
Record AppState : Type := {
  authUser : option Chat.AuthUser;
  authLoading : bool;
  authMode : AuthMode;
  selectedLanguage : option AppLanguage
}.

Inductive View : Type :=
| LoadingView
| LoginView
| SignupView
| ChatView (l : AppLanguage)
| DashboardView.

Definition AppContent (s : AppState) : View :=
  if authLoading s then LoadingView
  else
    match authUser s with
    | None =>
      match authMode s with
      | login => LoginView
      | signup => SignupView
      end
    | Some _ =>
      match selectedLanguage s with
      | Some l => ChatView l
      | None => DashboardView
      end
    end.

(** The chat component as the shell mounts it: the selected language, and
    the same [useAuth()]. *)
Definition chatProps (url anon : jsstring) (s : AppState) (l : AppLanguage) : Chat.Props :=
  {| Chat.language := chatLanguage l;
     Chat.user := authUser s;
     Chat.VITE_SUPABASE_URL := url;
     Chat.VITE_SUPABASE_ANON_KEY := anon |}.

(** *** The dashboard ([Dashboard.tsx]) *)

Section DashboardDates.

(** [date.toLocaleDateString()], which depends on the locale of the
    browser; [None] is the invalid date. *)
Variable toLocaleDateString : option Z -> jsstring.

(** [formatDate]: [date] is [new Date(dateString).getTime()], [None] when
    it is [NaN] (every comparison with it is false); [now] is
    [new Date().getTime()].  Times are whole milliseconds, of magnitude
    at most 8.64e15: the quotients are small enough for [Math.floor] of the
    floating-point division to be the floor of the exact one. *)
Definition formatDate (date : option Z) (now : Z) : jsstring :=
  match date with
  | None => toLocaleDateString None
  | Some t =>
    let diffMs := (now - t)%Z in
    let diffMins := (diffMs / 60000)%Z in
    let diffHours := (diffMs / 3600000)%Z in
    let diffDays := (diffMs / 86400000)%Z in
    if (diffMins <? 1)%Z then js "Just now"
    else if (diffMins <? 60)%Z then Number_toString (Z.to_N diffMins) ++ js "m ago"
    else if (diffHours <? 24)%Z then Number_toString (Z.to_N diffHours) ++ js "h ago"
    else if (diffDays <? 7)%Z then Number_toString (Z.to_N diffDays) ++ js "d ago"
    else toLocaleDateString (Some t)
  end.

End DashboardDates.

(** *** The language selector ([LanguageSelector.tsx]) *)

Module Selector.

Record State : Type := {
  languages : list AppLanguage;
  loading : bool
}.

(** [useState([])] and [useState(true)]. *)
Definition initialState : State := {| languages := []; loading := true |}.

Inductive Event : Type :=
| LanguagesSelect                        (* .from('languages').select('*').order('name') *)
| SetLanguages (l : list AppLanguage)
| SetLoading (b : bool).

Definition Ans (e : Event) : Type :=
  match e with
  | LanguagesSelect => Outcome (Chat.PostgrestResult (list AppLanguage))
  | SetLanguages _ => unit
  | SetLoading _ => unit
  end.

Definition call (e : Event) : Prog Ans unit := Vis e (fun _ => Ret tt).

Definition await (e : Event) {T : Type} (k : Ans e -> Outcome T) : Prog Ans T :=
  Vis e (fun a => settle (k a)).

Definition fetchLanguages : Prog Ans unit :=
  r <- await LanguagesSelect (fun o => o) ;;
  (match Chat.error r, Chat.data r return Prog Ans unit with
   | None, Some d => call (SetLanguages d)
   | _, _ => Ret tt
   end) ;;
  call (SetLoading false).

Definition set_state (e : Event) (s : State) : State :=
  match e with
  | LanguagesSelect => s
  | SetLanguages l => {| languages := l; loading := loading s |}
  | SetLoading b => {| languages := languages s; loading := b |}
  end.

Definition Env : Type := forall e : Event, Ans e.

Fixpoint run (env : Env) {A : Type} (p : Prog Ans A) (s : State)
  : Completion A * State :=
  match p with
  | Ret a => (Returned a, s)
  | Throw x => (Threw x, s)
  | Vis e k => run env (k (env e)) (set_state e s)
  end.

(** The environment in which the request settles as [o]. *)
Definition answering (o : Outcome (Chat.PostgrestResult (list AppLanguage))) : Env :=
  fun e =>
    match e as e0 return Ans e0 with
    | LanguagesSelect => o
    | SetLanguages _ => tt
    | SetLoading _ => tt
    end.

(** What the component renders: the spinner while [loading], else one
    card for each language. *)
Inductive Rendered : Type :=
| Spinner
| Cards (l : list AppLanguage).

Definition render (s : State) : Rendered :=
  if loading s then Spinner else Cards (languages s).

Inductive BadgeColor : Type := green | yellow | red | gray.

Section Badges.

(** [String.prototype.toLowerCase]. *)
Variable toLowerCase : jsstring -> jsstring.

Definition getDifficultyColor (level : jsstring) : BadgeColor :=
  let l := toLowerCase level in
  if jsstring_eqb l (js "beginner") then green
  else if jsstring_eqb l (js "intermediate") then yellow
  else if jsstring_eqb l (js "advanced") then red
  else gray.

End Badges.

(** [toLowerCase] on a code unit of the ASCII range. *)
Definition lowerUnit (c : N) : N :=
  if (65 <=? c) && (c <=? 90) then c + 32 else c.

Definition isAscii (s : jsstring) : bool := forallb (fun c => c <? 128) s.

End Selector.

(** The languages the migration inserts: name, code, level. *)
Definition seededLanguages : list (jsstring * jsstring * jsstring) :=
  [ (js "Spanish", js "es", js "Beginner");
    (js "French", js "fr", js "Beginner");
    (js "German", js "de", js "Intermediate");
    (js "Hindi", js "hi", js "Beginner");
    (js "Mandarin", js "zh", js "Advanced");
    (js "Japanese", js "ja", js "Intermediate");
    (js "Italian", js "it", js "Beginner");
    (js "Portuguese", js "pt", js "Beginner") ].

(* ================================================================= *)
(** ** Strings *)

Lemma trimStart_nil (s : jsstring) :
  trimStart s = [] <-> whitespaceOnly s = true.
Proof.
  unfold whitespaceOnly. induction s as [|c r IH]; simpl.
  - tauto.
  - destruct (isWhiteSpace c); simpl.
    + exact IH.
    + split; discriminate.
Qed.

Lemma whitespaceOnly_rev (s : jsstring) :
  whitespaceOnly (rev s) = whitespaceOnly s.
Proof.
  unfold whitespaceOnly. induction s as [|c r IH]; simpl; [reflexivity|].
  rewrite forallb_app, IH. simpl. rewrite andb_true_r. apply andb_comm.
Qed.

Lemma trimStart_whitespaceOnly (s : jsstring) :
  whitespaceOnly (trimStart s) = true -> whitespaceOnly s = true.
Proof.
  unfold whitespaceOnly. induction s as [|c r IH]; simpl; [tauto|].
  destruct (isWhiteSpace c) eqn:E; simpl.
  - exact IH.
  - rewrite E. discriminate.
Qed.

(** [trim] leaves nothing exactly of the strings of white space. *)
Lemma trim_nil (s : jsstring) : trim s = [] <-> whitespaceOnly s = true.
Proof.
  unfold trim, trimEnd. split.
  - intros H. apply trimStart_whitespaceOnly.
    rewrite <- whitespaceOnly_rev. apply trimStart_nil.
    apply (f_equal (@rev N)) in H. rewrite rev_involutive in H. exact H.
  - intros H. apply trimStart_nil in H. rewrite H. reflexivity.
Qed.

Lemma truthy_trim (s : jsstring) :
  truthy (trim s) = negb (whitespaceOnly s).
Proof.
  destruct (whitespaceOnly s) eqn:E.
  - apply trim_nil in E. rewrite E. reflexivity.
  - destruct (trim s) eqn:T; [|reflexivity].
    apply trim_nil in T. congruence.
Qed.

Lemma uint_units_digits (d : Decimal.uint) :
  Forall (fun c => isDigit c = true) (uint_units d).
Proof. induction d; simpl; constructor; auto. Qed.

(** A decimal numeral is never the identifier of the greeting. *)
Lemma Number_toString_not_welcome (n : N) :
  jsstring_eqb (Number_toString n) (js "welcome") = false.
Proof.
  unfold jsstring_eqb. destruct (list_eq_dec _ _ _) as [E|]; [|reflexivity].
  pose proof (uint_units_digits (N.to_uint n)) as D.
  unfold Number_toString in E. rewrite E in D.
  inversion D as [|c r H _]. discriminate H.
Qed.

(* ================================================================= *)
(** ** The chat component *)

Import Chat.

Lemma blocked_false (st : State) :
  blocked st = false ->
  exists i, conversationId st = Some i /\ truthy i = true
            /\ whitespaceOnly (input st) = false /\ loading st = false.
Proof.
  unfold blocked. rewrite truthy_trim.
  destruct (conversationId st) as [i|]; simpl.
  - destruct (whitespaceOnly (input st)), (truthy i) eqn:Ti, (loading st);
      simpl; try discriminate. intros _. exists i. repeat split. exact Ti.
  - rewrite orb_true_r. discriminate.
Qed.

Lemma blocked_true (st : State) :
  loading st = true \/ whitespaceOnly (input st) = true
  \/ conversationId st = None ->
  blocked st = true.
Proof.
  unfold blocked. rewrite truthy_trim.
  intros [H | [H | H]]; rewrite H; simpl.
  - apply orb_true_r.
  - reflexivity.
  - rewrite orb_true_r. reflexivity.
Qed.

(** A blocked call does nothing. *)
Lemma Submit_blocked (P : Props) (env : Env) (w : World) :
  blocked (state w) = true -> Submit P env w = idle w.
Proof.
  intros H. unfold Submit, run, handleSend. rewrite H. reflexivity.
Qed.

(** Symbolic execution of a call: name the run, unfold the program in
    the equation that defines it, split on how the environment answers
    each request in turn, and put the run found back into the goal. *)
Ltac unfold_call_in E :=
  unfold Submit, Initialize, run, suspended, handleSend, initializeConversation,
    exchange, recover, rendering, Queued, await, perform, call, trigger in E.

Ltac evaluate_in E :=
  cbn -[js trim Number_toString lookup_member conversationHistory apologyText
        apologyMessage userMessage welcomeMessage getProp N.add N.of_nat] in E.

Ltac evaluate :=
  cbn -[js trim Number_toString lookup_member conversationHistory apologyText
        apologyMessage userMessage welcomeMessage getProp N.add N.of_nat].

Ltac recall_answers :=
  repeat match goal with
         | E : ?x = Fulfilled _ |- context [?x] => rewrite E
         | E : ?x = Rejected _ |- context [?x] => rewrite E
         | E : ok ?r = _ |- context [ok ?r] => rewrite E
         end.

Ltac split_answers E :=
  evaluate_in E;
  repeat (match type of E with
          | context [getProp (VJson ?v) _] => destruct v; unfold getProp in E
          | context [negb (ok ?r)] =>
            let A := fresh "A" in destruct (ok r) eqn:A; rewrite ?A in E
          | context [settle (json ?r)] =>
            let A := fresh "A" in destruct (json r) eqn:A; rewrite ?A in E
          | context [settle (?env ?n ?e)] =>
            let A := fresh "A" in destruct (env n e) eqn:A; rewrite ?A in E
          | context [match ?n with O => _ | S _ => _ end] => is_var n; destruct n
          end; evaluate_in E).

Ltac run_call H :=
  let i := fresh "i" in
  let Hi := fresh "Hi" in
  destruct (blocked_false _ H) as (i & Hi & ?Hti & ?Hws & ?Hld);
  match goal with
  | |- context [Submit ?P ?env ?w] =>
    let r := fresh "r" in
    let E := fresh "Er" in
    remember (Submit P env w) as r eqn:E;
    unfold_call_in E; rewrite H, Hi in E;
    split_answers E; subst r; evaluate; recall_answers; evaluate
  end.

(** X9: once a call is past its guard, the flag is cleared at its end unless
    the insert of the user turn was rejected. *)
Lemma loading_cleared (P : Props) (env : Env) (w : World) :
  blocked (state w) = false ->
  userInsertRejected (log (Submit P env w)) = false ->
  loading (state (final (Submit P env w))) = false
  /\ completion (Submit P env w) = Returned tt.
Proof.
  intros H. run_call H; intros; try discriminate; split; reflexivity.
Qed.

(** The counter a call writes is the number of turns its render saw,
    plus two. *)
Lemma counter_written (P : Props) (env : Env) (w : World) :
  Forall (fun patch =>
            cu_message_count patch = N.of_nat (List.length (messages (state w))) + 2)
         (updated (log (Submit P env w))).
Proof.
  destruct (blocked (state w)) eqn:H.
  - rewrite Submit_blocked by exact H. constructor.
  - run_call H; repeat constructor.
Qed.

(** C1: in the scenario Initialize, then Submit of [Hola] with every
    request succeeding, the turn sequence is the greeting, the user turn
    [Hola] and the reply, and two rows are stored; but the counter stored
    for the conversation goes from 0 to 3, not to 2: the greeting, which is
    never stored, is counted. *)
Theorem C1_first_exchange_stores_three :
  messages (state (final holaSent))
  = [ welcomeMessage spanish;
      {| msg_id := js "1700000001000"; msg_role := role_user;
         msg_content := VStr (js "Hola");
         msg_translation := VUndefined; msg_tip := VUndefined |};
      {| msg_id := js "1700000001006"; msg_role := role_assistant;
         msg_content := VStr (js "¡Hola! ¿Cómo estás?");
         msg_translation := VStr (js "Hello! How are you?");
         msg_tip := VStr (js "Use formal greetings") |} ]
  /\ completion holaSent = Returned tt
  /\ map conv_message_count (conversations (store holaTyped)) = [0]
  /\ map conv_message_count (conversations (store (final holaSent))) = [3]
  /\ List.length (messages_table (store (final holaSent))) = 2%nat.
Proof. vm_compute. repeat split. Qed.

(** C3 as stated fails: when the inference service is unreachable the
    turn sequence grows by two (the user turn and the apology), not by
    one. *)
Lemma C3_counterexample :
  blocked (state holaTyped) = false
  /\ inferenceFailed (log holaFailed) = true
  /\ List.length (messages (state (final holaFailed)))
     <> (List.length (messages (state holaTyped)) + 1)%nat.
Proof. repeat split; try (vm_compute; reflexivity). vm_compute. discriminate. Qed.

(** C3, amended: a Submit whose inference call fails (a rejected request,
    a status that is not a success, a body that is not JSON or is [null])
    leaves the turn sequence longer by exactly two, the user turn and one
    apology turn whose text and translation are the fixed apology and
    which has no tip; the only insert of the call is the one of the user
    turn, the store gains at most that row, the inference service is
    called once, and the flag is cleared. *)
Theorem C3_inference_failure_appends_user_turn_and_apology
        (P : Props) (env : Env) (w : World) :
  blocked (state w) = false ->
  inferenceFailed (log (Submit P env w)) = true ->
  let r := Submit P env w in
  let um := userMessage (env 0%nat DateNow) (state w) in
  exists i t,
    conversationId (state w) = Some i
    /\ messages (state (final r)) = messages (state w) ++ [um; apologyMessage t]
    /\ List.length (messages (state (final r)))
       = (List.length (messages (state w)) + 2)%nat
    /\ msg_role (apologyMessage t) = role_assistant
    /\ msg_content (apologyMessage t) = VStr apologyText
    /\ msg_translation (apologyMessage t) = VStr apologyText
    /\ msg_tip (apologyMessage t) = VUndefined
    /\ inserted (log r) = [row_of i um]
    /\ (messages_table (store (final r)) = messages_table (store w)
        \/ messages_table (store (final r))
           = messages_table (store w) ++ [row_of i um])
    /\ List.length (fetched (log r)) = 1%nat
    /\ loading (state (final r)) = false.
Proof.
  intros H. run_call H; intros F; try discriminate F;
    match goal with
    | |- context [apologyMessage ?t] => exists i, t
    end;
    rewrite ?length_app; simpl List.length;
    (repeat split; try reflexivity; try assumption; try lia).
  all: try (rewrite <- app_assoc; reflexivity).
  all: match goal with
       | |- context [error ?a] => destruct (error a); [left | right]; reflexivity
       end.
Qed.

Lemma C3_witness :
  blocked (state holaTyped) = false
  /\ inferenceFailed (log holaFailed) = true
  /\ exists i t,
      conversationId (state holaTyped) = Some i
      /\ messages (state (final holaFailed))
         = messages (state holaTyped)
           ++ [userMessage (offline 0%nat DateNow) (state holaTyped);
               apologyMessage t]
      /\ List.length (messages (state (final holaFailed)))
         = (List.length (messages (state holaTyped)) + 2)%nat
      /\ msg_role (apologyMessage t) = role_assistant
      /\ msg_content (apologyMessage t) = VStr apologyText
      /\ msg_translation (apologyMessage t) = VStr apologyText
      /\ msg_tip (apologyMessage t) = VUndefined
      /\ inserted (log holaFailed)
         = [row_of i (userMessage (offline 0%nat DateNow) (state holaTyped))]
      /\ (messages_table (store (final holaFailed))
          = messages_table (store holaTyped)
          \/ messages_table (store (final holaFailed))
             = messages_table (store holaTyped)
               ++ [row_of i (userMessage (offline 0%nat DateNow) (state holaTyped))])
      /\ List.length (fetched (log holaFailed)) = 1%nat
      /\ loading (state (final holaFailed)) = false.
Proof.
  split; [reflexivity|]. split; [reflexivity|].
  apply (C3_inference_failure_appends_user_turn_and_apology demo offline holaTyped);
    reflexivity.
Defined.

Lemma unblocked (st : State) (i : jsstring) :
  whitespaceOnly (input st) = false -> conversationId st = Some i ->
  truthy i = true -> loading st = false ->
  blocked st = false.
Proof.
  intros Hws Hi Hti Hld. unfold blocked.
  rewrite truthy_trim, Hws, Hi, Hti, Hld. reflexivity.
Qed.

(** While a call waits for a request, the flag is set. *)
Lemma suspended_loading (P : Props) (env : Env) (w : World) (n : nat)
      (w1 : World) (l1 : Log) :
  suspended env n (handleSend P (state w)) w = Some (w1, l1) ->
  loading (state w1) = true.
Proof.
  intros E. destruct (blocked (state w)) eqn:H.
  - unfold suspended, handleSend in E. rewrite H in E. discriminate E.
  - destruct (blocked_false _ H) as (i & Hi & _).
    unfold_call_in E. rewrite H, Hi in E.
    split_answers E; try discriminate E;
      injection E as <- <-; reflexivity.
Qed.

(** C4: Submit does nothing (same component state, same store, no event)
    when the flag is set, when the text is empty or white space only, or
    when there is no conversation identifier; and a Submit issued while an
    earlier one waits for any of its requests is dropped, whatever was
    typed meanwhile. *)
Theorem C4_submit_is_dropped (P : Props) :
  (forall env w,
      loading (state w) = true
      \/ whitespaceOnly (input (state w)) = true
      \/ conversationId (state w) = None ->
      Submit P env w = idle w)
  /\ (forall env w n w1 l1,
        suspended env n (handleSend P (state w)) w = Some (w1, l1) ->
        forall env' text,
          Submit P env' w1 = idle w1
          /\ Submit P env' (typeText text w1) = idle (typeText text w1)).
Proof.
  split.
  - intros env w H. apply Submit_blocked, blocked_true, H.
  - intros env w n w1 l1 E env' text.
    apply suspended_loading in E.
    split; apply Submit_blocked, blocked_true; left; exact E.
Qed.

Lemma C4_witness :
  Submit demo steady (typeText (js "  ") mounted) = idle (typeText (js "  ") mounted)
  /\ forall w1 l1,
       suspended steady 1 (handleSend demo (state holaTyped)) holaTyped = Some (w1, l1) ->
       forall env' text,
         Submit demo env' w1 = idle w1
         /\ Submit demo env' (typeText text w1) = idle (typeText text w1).
Proof.
  split.
  - apply (proj1 (C4_submit_is_dropped demo)). right. left. reflexivity.
  - intros w1 l1 E. exact (proj2 (C4_submit_is_dropped demo) steady holaTyped 1%nat w1 l1 E).
Defined.

(** C6: when the text is not white space only, there is a conversation
    identifier and the flag is clear, the call appends the user turn
    before it issues its first request: at the moment it first waits, no
    request has been issued, the store is untouched and the turn sequence
    is the old one followed by the user turn; and whatever the requests
    answer, this is the only user turn the call appends. *)
Theorem C6_user_turn_is_appended_before_any_request
        (P : Props) (env : Env) (w : World) (i : jsstring) :
  whitespaceOnly (input (state w)) = false ->
  conversationId (state w) = Some i ->
  truthy i = true ->
  loading (state w) = false ->
  let um := userMessage (env 0%nat DateNow) (state w) in
  msg_role um = role_user
  /\ (exists w1 l1,
        suspended env 0 (handleSend P (state w)) w = Some (w1, l1)
        /\ requests l1 = []
        /\ messages (state w1) = messages (state w) ++ [um]
        /\ store w1 = store w)
  /\ filter isUserTurn (appended (log (Submit P env w))) = [um].
Proof.
  intros Hws Hi Hti Hld um.
  pose proof (unblocked _ _ Hws Hi Hti Hld) as H.
  split; [reflexivity|]. split.
  - unfold suspended, handleSend. rewrite H, Hi. evaluate.
    eexists _, _. split; [reflexivity|]. repeat split.
  - subst um. run_call H; reflexivity.
Qed.

Lemma C6_witness :
  let um := userMessage (steady 0%nat DateNow) (state holaTyped) in
  msg_role um = role_user
  /\ (exists w1 l1,
        suspended steady 0 (handleSend demo (state holaTyped)) holaTyped = Some (w1, l1)
        /\ requests l1 = []
        /\ messages (state w1) = messages (state holaTyped) ++ [um]
        /\ store w1 = store holaTyped)
  /\ filter isUserTurn (appended (log (Submit demo steady holaTyped))) = [um].
Proof.
  apply (C6_user_turn_is_appended_before_any_request demo steady holaTyped (js "c-1"));
    reflexivity.
Defined.

(** *** Failures of the store *)

Lemma reporting_insert (env : Env) (n : nat) (row : MessageInsert) :
  reporting env -> exists a, env n (MessagesInsert row) = Fulfilled a.
Proof.
  intros [H _]. specialize (H n row).
  destruct (env n (MessagesInsert row)) as [a|x]; [eauto | discriminate H].
Qed.

Lemma reporting_update (env : Env) (n : nat) (patch : ConversationUpdate)
      (i : jsstring) :
  reporting env -> exists a, env n (ConversationsUpdate patch i) = Fulfilled a.
Proof.
  intros [_ H]. specialize (H n patch i).
  destruct (env n (ConversationsUpdate patch i)) as [a|x]; [eauto | discriminate H].
Qed.

(** A store that reports its failures rejects no write. *)
Ltac no_rejection Hr :=
  match goal with
  | A : ?env ?n (MessagesInsert ?row) = Rejected _ |- _ =>
    exfalso; destruct (reporting_insert env n row Hr) as [? B];
    rewrite B in A; discriminate A
  | A : ?env ?n (ConversationsUpdate ?patch ?i) = Rejected _ |- _ =>
    exfalso; destruct (reporting_update env n patch i Hr) as [? B];
    rewrite B in A; discriminate A
  end.

(** C2: a Submit that passes its guard, with a store that answers every
    write with a result (acknowledged or refused with an error), runs to
    its end and leaves the flag cleared: whether the insert of the user
    turn is refused, the inference call fails in any way, or the later
    writes are refused.  The session is not stuck: the conversation
    identifier is kept, and any text that is not white space only passes
    the guard of the next Submit. *)
Theorem C2_flag_is_cleared_when_the_call_completes
        (P : Props) (env : Env) (w : World) :
  blocked (state w) = false ->
  reporting env ->
  let r := Submit P env w in
  completion r = Returned tt
  /\ loading (state (final r)) = false
  /\ conversationId (state (final r)) = conversationId (state w)
  /\ forall text,
       whitespaceOnly text = false ->
       blocked (state (typeText text (final r))) = false.
Proof.
  intros H Hr r. subst r.
  assert (G : completion (Submit P env w) = Returned tt
              /\ loading (state (final (Submit P env w))) = false
              /\ conversationId (state (final (Submit P env w)))
                 = conversationId (state w)).
  { run_call H; try no_rejection Hr; repeat split; symmetry; assumption. }
  destruct G as (Gc & Gl & Gi).
  split; [exact Gc|]. split; [exact Gl|]. split; [exact Gi|].
  intros text Ht.
  destruct (blocked_false _ H) as (i & Hi & Hti & _).
  apply (unblocked _ i); simpl; [exact Ht | congruence | exact Hti | exact Gl].
Qed.

Lemma C2_witness :
  let env := withRefusals (fun _ => true) (js "row-level security") offline in
  let r := Submit demo env holaTyped in
  completion r = Returned tt
  /\ loading (state (final r)) = false
  /\ conversationId (state (final r)) = conversationId (state holaTyped)
  /\ forall text,
       whitespaceOnly text = false ->
       blocked (state (typeText text (final r))) = false.
Proof.
  intros env.
  apply (C2_flag_is_cleared_when_the_call_completes demo env holaTyped).
  - reflexivity.
  - split; intros; reflexivity.
Defined.

(** C5: with a store that answers every write with a result, whatever
    the writes of a Submit answer (the insert of the user turn, the insert
    of the assistant turn and the update of the counter, each acknowledged
    or refused with an error), the call is the one it would be with every
    write acknowledged: the same component state at the end, so no turn is
    added or taken back; the same events, so the same turns appended and
    the same requests, none of them issued again; and the same
    completion. *)
Theorem C5_persistence_failures_are_not_surfaced
        (P : Props) (env : Env) (w : World) :
  reporting env ->
  let r := Submit P env w in
  let r' := Submit P (acknowledging env) w in
  state (final r) = state (final r')
  /\ events (log r) = events (log r')
  /\ completion r = completion r'
  /\ appended (log r) = appended (log r')
  /\ requests (log r) = requests (log r').
Proof.
  intros Hr r r'.
  assert (G : state (final r) = state (final r')
              /\ events (log r) = events (log r')
              /\ completion r = completion r').
  { subst r r'. destruct (blocked (state w)) eqn:H.
    - rewrite !Submit_blocked by exact H. repeat split.
    - destruct (blocked_false _ H) as (i & Hi & _).
      remember (Submit P env w) as r eqn:Er.
      remember (Submit P (acknowledging env) w) as r' eqn:Er'.
      unfold_call_in Er. unfold_call_in Er'. rewrite H, Hi in Er, Er'.
      unfold acknowledging in Er'.
      evaluate_in Er; evaluate_in Er'.
      repeat (match type of Er with
              | context [getProp (VJson ?v) _] =>
                destruct v; unfold getProp in Er, Er'
              | context [negb (ok ?r)] =>
                let A := fresh "A" in destruct (ok r) eqn:A; rewrite ?A in Er, Er'
              | context [settle (json ?r)] =>
                let A := fresh "A" in destruct (json r) eqn:A; rewrite ?A in Er, Er'
              | context [settle (?env ?n (MessagesInsert ?row))] =>
                let A := fresh "A" in
                destruct (reporting_insert _ n row Hr) as [? A]; rewrite A in Er
              | context [settle (?env ?n (ConversationsUpdate ?patch ?j))] =>
                let A := fresh "A" in
                destruct (reporting_update _ n patch j Hr) as [? A]; rewrite A in Er
              | context [settle (?env ?n ?e)] =>
                let A := fresh "A" in destruct (env n e) eqn:A; rewrite ?A in Er, Er'
              end; evaluate_in Er; evaluate_in Er');
        subst r r'; repeat split. }
  destruct G as (Gs & Ge & Gc).
  split; [exact Gs|]. split; [exact Ge|]. split; [exact Gc|].
  unfold appended, requests. rewrite Ge. split; reflexivity.
Qed.

Lemma C5_witness :
  let env := withRefusals (fun _ => true) (js "row-level security") steady in
  let r := Submit demo env holaTyped in
  let r' := Submit demo (acknowledging env) holaTyped in
  state (final r) = state (final r')
  /\ events (log r) = events (log r')
  /\ completion r = completion r'
  /\ appended (log r) = appended (log r')
  /\ requests (log r) = requests (log r').
Proof.
  intros env.
  apply (C5_persistence_failures_are_not_surfaced demo env holaTyped).
  split; intros; reflexivity.
Defined.

(** *** The turns of a reachable session *)

Lemma filter_all (A : Type) (f : A -> bool) (l : list A) :
  forallb f l = true -> filter f l = l.
Proof.
  induction l as [|a r IH]; simpl; [reflexivity|].
  destruct (f a); simpl; [|discriminate].
  intros H. rewrite IH by exact H. reflexivity.
Qed.

(** A call only appends turns, whose identifiers are numerals, and keeps
    the conversation identifier. *)
Lemma Submit_appends (P : Props) (env : Env) (w : World) :
  exists new,
    messages (state (final (Submit P env w))) = messages (state w) ++ new
    /\ forallb notWelcome new = true
    /\ conversationId (state (final (Submit P env w))) = conversationId (state w).
Proof.
  destruct (blocked (state w)) eqn:H.
  - rewrite Submit_blocked by exact H. exists []. rewrite app_nil_r. auto.
  - run_call H; rewrite <- ?app_assoc; eexists;
      (split; [reflexivity|]); (split; [|reflexivity]);
      unfold notWelcome, userMessage, apologyMessage; simpl;
      rewrite ?Number_toString_not_welcome; reflexivity.
Qed.

Lemma Initialize_final (P : Props) (env : Env) (w : World) :
  state (final (Initialize P env w)) = state w
  \/ exists i,
      state (final (Initialize P env w))
      = {| messages := [welcomeMessage (language P)];
           input := input (state w);
           loading := loading (state w);
           conversationId := Some i |}.
Proof.
  unfold Initialize, run, initializeConversation.
  destruct (user P) as [u|]; [|left; reflexivity].
  unfold await. cbn -[js welcomeMessage].
  destruct (env 0%nat _) as [[d e]|x]; cbn -[js welcomeMessage];
    [|left; reflexivity].
  destruct e; cbn -[js welcomeMessage]; [left; reflexivity|].
  destruct d as [d|]; cbn -[js welcomeMessage]; [|left; reflexivity].
  right. eexists. reflexivity.
Qed.

Lemma reachable_greeted (P : Props) (w : World) :
  reachable P w -> greeted P (state w).
Proof.
  induction 1 as [db | w text _ IH | w env _ IH | w env _ IH].
  - left. reflexivity.
  - exact IH.
  - destruct (Initialize_final P env w) as [E | [i E]]; rewrite E.
    + exact IH.
    + right. exists []. split; reflexivity.
  - destruct (Submit_appends P env w) as (new & Em & Hn & Ec).
    destruct IH as [IH | (rest & Er & Hr)].
    + left. rewrite Ec. exact IH.
    + right. exists (rest ++ new). rewrite Em, Er. split; [reflexivity|].
      rewrite forallb_app, Hr, Hn. reflexivity.
Qed.

(** In a reachable session the history of a request is made of every turn
    after the greeting. *)
Lemma history_after_greeting (P : Props) (w : World) :
  reachable P w -> conversationId (state w) <> None ->
  (exists rest, messages (state w) = welcomeMessage (language P) :: rest)
  /\ conversationHistory (state w)
     = map reduced (afterGreeting (messages (state w))).
Proof.
  intros R Hc. destruct (reachable_greeted P w R) as [E | (rest & E & Hr)];
    [contradiction|].
  split; [eauto|]. unfold conversationHistory. rewrite E.
  cbn -[js]. change (filter _ rest) with (filter notWelcome rest).
  rewrite filter_all by exact Hr. reflexivity.
Qed.

(** C7 as stated fails: after a failed exchange, the apology, a synthetic
    turn, is part of the history sent with the next message. *)
Lemma C7_counterexample :
  reachable demo adiosTyped
  /\ blocked (state adiosTyped) = false
  /\ map historyOf (fetched (log adiosSent))
     = [ [ {| h_role := role_user; h_content := VStr (js "Hola") |};
           {| h_role := role_assistant; h_content := VStr apologyText |};
           {| h_role := role_user; h_content := VStr (js "Adios") |} ] ]
  /\ map reduced (realTurns (messages (state adiosTyped)))
       ++ [ {| h_role := role_user;
               h_content := VStr (trim (input (state adiosTyped))) |} ]
     = [ {| h_role := role_user; h_content := VStr (js "Hola") |};
         {| h_role := role_user; h_content := VStr (js "Adios") |} ]
  /\ map historyOf (fetched (log adiosSent))
     <> [ map reduced (realTurns (messages (state adiosTyped)))
            ++ [ {| h_role := role_user;
                    h_content := VStr (trim (input (state adiosTyped))) |} ] ].
Proof.
  split.
  { unfold adiosTyped, holaFailed, holaTyped, mounted.
    apply reach_type, reach_submit, reach_type, reach_init, reach_mount. }
  repeat split; try (vm_compute; reflexivity).
  vm_compute. discriminate.
Qed.

(** C7, amended: in a session reached by Initialize, typing and Submit,
    the body of the inference request of a Submit holds the turns of the
    session in order, all but the greeting (the apologies of earlier
    failed exchanges included), each reduced to its speaker and text, then
    the new user turn once, as the last element; and the language code,
    the language name and the level.  The request is issued once, unless
    the insert of the user turn was rejected. *)
Theorem C7_request_carries_every_turn_but_the_greeting
        (P : Props) (env : Env) (w : World) :
  reachable P w ->
  blocked (state w) = false ->
  let r := Submit P env w in
  let sent :=
    {| req_messages :=
         map reduced (afterGreeting (messages (state w)))
         ++ [ {| h_role := role_user;
                 h_content := VStr (trim (input (state w))) |} ];
       req_languageCode := lang_code (language P);
       req_languageName := lang_name (language P);
       req_difficulty := lang_difficulty_level (language P) |} in
  (exists rest, messages (state w) = welcomeMessage (language P) :: rest)
  /\ Forall (fun ui => body (snd ui) = sent) (fetched (log r))
  /\ (userInsertRejected (log r) = true -> fetched (log r) = [])
  /\ (userInsertRejected (log r) = false -> List.length (fetched (log r)) = 1%nat).
Proof.
  intros R H r sent. subst r sent.
  assert (Hc : conversationId (state w) <> None).
  { destruct (blocked_false _ H) as (i & Hi & _). congruence. }
  destruct (history_after_greeting P w R Hc) as [G <-].
  split; [exact G|]. clear G R Hc.
  run_call H; repeat split; intros; try discriminate;
    try reflexivity; repeat constructor.
Qed.

Lemma C7_witness :
  let r := Submit demo steady adiosTyped in
  let sent :=
    {| req_messages :=
         map reduced (afterGreeting (messages (state adiosTyped)))
         ++ [ {| h_role := role_user;
                 h_content := VStr (trim (input (state adiosTyped))) |} ];
       req_languageCode := lang_code (language demo);
       req_languageName := lang_name (language demo);
       req_difficulty := lang_difficulty_level (language demo) |} in
  (exists rest, messages (state adiosTyped) = welcomeMessage (language demo) :: rest)
  /\ Forall (fun ui => body (snd ui) = sent) (fetched (log r))
  /\ (userInsertRejected (log r) = true -> fetched (log r) = [])
  /\ (userInsertRejected (log r) = false -> List.length (fetched (log r)) = 1%nat).
Proof.
  apply (C7_request_carries_every_turn_but_the_greeting demo steady adiosTyped).
  - unfold adiosTyped, holaFailed, holaTyped, mounted.
    apply reach_type, reach_submit, reach_type, reach_init, reach_mount.
  - reflexivity.
Defined.

(** C8: Initialize issues no insert of a message, and when the creation
    of the conversation succeeds the turn sequence becomes the greeting
    alone, an assistant turn whose translation is the English gloss.
    In a Submit, the [catch] block, the only place where an apology is
    appended, issues no insert; the inserts of the call are, in order, the
    rows of the turns appended outside that block, none of which bears the
    identifier of the greeting. *)
Theorem C8_synthetic_turns_are_never_inserted
        (P : Props) (env : Env) (w : World) :
  inserted (log (Initialize P env w)) = []
  /\ (forall d,
        created (log (Initialize P env w))
        = [Fulfilled {| data := Some d; error := None |}] ->
        messages (state (final (Initialize P env w)))
        = [welcomeMessage (language P)])
  /\ msg_role (welcomeMessage (language P)) = role_assistant
  /\ msg_translation (welcomeMessage (language P))
     = VStr (js "Hello! I'm your " ++ lang_name (language P)
                ++ js " tutor. Let's practice together!")
  /\ inserted (fromCatch (log (Submit P env w))) = []
  /\ (appended (fromCatch (log (Submit P env w))) = []
      \/ exists t,
          appended (fromCatch (log (Submit P env w))) = [apologyMessage t])
  /\ (forall i,
        conversationId (state w) = Some i ->
        inserted (log (Submit P env w))
        = map (row_of i) (appended (beforeCatch (log (Submit P env w)))))
  /\ forallb notWelcome (appended (log (Submit P env w))) = true.
Proof.
  split; [|split; [|split; [reflexivity|split; [reflexivity|]]]].
  - unfold Initialize, run, initializeConversation.
    destruct (user P) as [u|]; [|reflexivity].
    unfold await, call. cbn -[js welcomeMessage].
    destruct (env 0%nat _) as [[[d|] [e|]]|x]; reflexivity.
  - intros d. unfold Initialize, run, initializeConversation.
    destruct (user P) as [u|]; [|discriminate].
    unfold await, call. cbn -[js welcomeMessage].
    destruct (env 0%nat _) as [[[d'|] [e|]]|x]; cbn -[js welcomeMessage];
      intros E; try discriminate E; reflexivity.
  - destruct (blocked (state w)) eqn:H.
    + rewrite Submit_blocked by exact H.
      repeat split; left; reflexivity.
    + run_call H;
        (split; [reflexivity|]);
        (split; [first [left; reflexivity | right; eexists; reflexivity]|]);
        (split; [intros j Hj; rewrite Hj in Hi; injection Hi as ->; reflexivity|]);
        unfold notWelcome, userMessage, apologyMessage; simpl;
        rewrite ?Number_toString_not_welcome; reflexivity.
Qed.

Lemma C8_witness :
  inserted (log (Initialize demo creating (initialWorld emptyStore))) = []
  /\ messages (state mounted) = [welcomeMessage spanish]
  /\ inserted (fromCatch (log holaFailed)) = []
  /\ inserted (log holaFailed)
     = map (row_of (js "c-1")) (appended (beforeCatch (log holaFailed))).
Proof.
  pose proof (C8_synthetic_turns_are_never_inserted demo creating (initialWorld emptyStore))
    as (I0 & I1 & _).
  pose proof (C8_synthetic_turns_are_never_inserted demo offline holaTyped)
    as (_ & _ & _ & _ & S0 & _ & S1 & _).
  split; [exact I0|].
  split; [exact (I1 _ eq_refl)|].
  split; [exact S0|].
  exact (S1 (js "c-1") eq_refl).
Defined.

(** C10: when the trimmed text is not empty (and there is a conversation
    identifier and the flag is clear), the first turn the call appends is
    a user turn whose text is the trimmed input, the first insert of the
    call is a user row with that text, and the history of the inference
    request ends with a user item with that text; the request is issued
    unless the insert was rejected. *)
Theorem C10_trimmed_text_is_what_is_shown_stored_and_sent
        (P : Props) (env : Env) (w : World) (i : jsstring) :
  trim (input (state w)) <> [] ->
  conversationId (state w) = Some i ->
  truthy i = true ->
  loading (state w) = false ->
  let r := Submit P env w in
  let text := VStr (trim (input (state w))) in
  (exists m rest,
      appended (log r) = m :: rest
      /\ messages (state (final r)) = messages (state w) ++ m :: rest
      /\ msg_role m = role_user /\ msg_content m = text)
  /\ (exists row rest,
         inserted (log r) = row :: rest
         /\ mi_conversation_id row = i
         /\ mi_role row = role_user /\ mi_content row = text)
  /\ Forall (fun ui =>
               exists before,
                 historyOf ui
                 = before ++ [ {| h_role := role_user; h_content := text |} ])
            (fetched (log r))
  /\ (userInsertRejected (log r) = false -> List.length (fetched (log r)) = 1%nat).
Proof.
  intros Ht Hi Hti Hld r text. subst r text.
  assert (Hws : whitespaceOnly (input (state w)) = false).
  { destruct (whitespaceOnly (input (state w))) eqn:E; [|reflexivity].
    apply trim_nil in E. contradiction. }
  pose proof (unblocked _ _ Hws Hi Hti Hld) as H.
  run_call H; rewrite <- ?app_assoc;
    (split; [eexists _, _; repeat split|]);
    (split; [eexists _, _; repeat split; simpl; congruence|]);
    (split; [repeat constructor; try (eexists; reflexivity)|]);
    intros; try discriminate; reflexivity.
Qed.

Lemma C10_witness :
  let w := typeText (js "  Hola ") mounted in
  let r := Submit demo steady w in
  input (state w) <> trim (input (state w))
  /\ (exists m rest,
         appended (log r) = m :: rest
         /\ messages (state (final r)) = messages (state w) ++ m :: rest
         /\ msg_role m = role_user /\ msg_content m = VStr (js "Hola"))
  /\ (exists row rest,
         inserted (log r) = row :: rest
         /\ mi_conversation_id row = js "c-1"
         /\ mi_role row = role_user /\ mi_content row = VStr (js "Hola"))
  /\ Forall (fun ui =>
               exists before,
                 historyOf ui
                 = before ++ [ {| h_role := role_user; h_content := VStr (js "Hola") |} ])
            (fetched (log r))
  /\ (userInsertRejected (log r) = false -> List.length (fetched (log r)) = 1%nat).
Proof.
  intros w r. split; [vm_compute; discriminate|].
  apply (C10_trimmed_text_is_what_is_shown_stored_and_sent
           demo steady (typeText (js "  Hola ") mounted) (js "c-1"));
    try reflexivity.
  vm_compute. discriminate.
Defined.

(* ================================================================= *)
(** ** The edge function *)

(** C9 as stated fails: a reply that is valid JSON but not the structured
    object (here an object with another member) is sent on as it is. *)
Lemma C9_counterexample :
  let raw := jsq "{'reply':'Hola amigo'}" in
  parseableAsStructured raw = false
  /\ Edge.run (Edge.replying (js "sk-test") raw) (Edge.serve postRequest)
     = Returned {| Edge.status := 200;
                   Edge.headers := Edge.jsonHeaders;
                   Edge.body :=
                     Some (JObject [ (js "reply", JString (js "Hola amigo")) ]) |}
  /\ Edge.run (Edge.replying (js "sk-test") raw) (Edge.serve postRequest)
     <> Returned {| Edge.status := 200;
                    Edge.headers := Edge.jsonHeaders;
                    Edge.body := Some (Edge.fallback (VStr raw)) |}.
Proof.
  repeat split; try (vm_compute; reflexivity).
  vm_compute. discriminate.
Qed.

(** C9, amended: when the raw text of the reply is not valid JSON (the
    parse throws), the function answers with status 200 and the body
    [{response: raw, translation: "Translation not available", tip: null}],
    which the component takes for a successful reply. *)
Theorem C9_reply_that_is_not_json_falls_back
        (env : Edge.Env) (req : Edge.Request) (b : Edge.RequestBody)
        (key : jsstring) (upstream : Edge.UpstreamResponse) (data : JValue)
        (raw : jsstring) :
  jsstring_eqb (Edge.req_method req) (js "OPTIONS") = false ->
  Edge.req_json req = Fulfilled b ->
  env (Edge.EnvGet (js "OPENAI_API_KEY")) = Some key ->
  truthy key = true ->
  (forall url init, env (Edge.OpenAIFetch url init) = Fulfilled upstream) ->
  Edge.up_ok upstream = true ->
  Edge.up_json upstream = Fulfilled data ->
  Edge.firstChoiceContent data = Fulfilled (VStr raw) ->
  JSON_parse raw = None ->
  let answer :=
    {| Edge.status := 200;
       Edge.headers := Edge.jsonHeaders;
       Edge.body :=
         Some (JObject
                 [ (js "response", JString raw);
                   (js "translation", JString (js "Translation not available"));
                   (js "tip", JNull) ]) |} in
  Edge.run env (Edge.serve req) = Returned answer
  /\ inferenceFails (Fulfilled (asFetched answer)) = false.
Proof.
  intros Hm Hb Hk Hkt Hf Hok Hj Hc Hp answer.
  split; [|reflexivity].
  unfold Edge.serve. rewrite Hm, Hb.
  unfold Edge.perform, Edge.call, Edge.await, trigger.
  cbn -[js Edge.getSystemPrompt Edge.firstChoiceContent Edge.parsedResponse].
  rewrite Hk. destruct key as [|c k]; [discriminate Hkt|].
  cbn -[js Edge.getSystemPrompt Edge.firstChoiceContent Edge.parsedResponse].
  rewrite Hf.
  cbn -[js Edge.getSystemPrompt Edge.firstChoiceContent Edge.parsedResponse].
  rewrite Hok.
  cbn -[js Edge.getSystemPrompt Edge.firstChoiceContent Edge.parsedResponse].
  rewrite Hj.
  cbn -[js Edge.getSystemPrompt Edge.firstChoiceContent Edge.parsedResponse].
  rewrite Hc.
  cbn -[js Edge.getSystemPrompt Edge.firstChoiceContent Edge.parsedResponse].
  unfold Edge.parsedResponse. cbn -[js JSON_parse]. rewrite Hp. reflexivity.
Qed.

Lemma C9_witness :
  JSON_parse (js "Hola amigo") = None
  /\ Edge.run (Edge.replying (js "sk-test") (js "Hola amigo")) (Edge.serve postRequest)
     = Returned
         {| Edge.status := 200;
            Edge.headers := Edge.jsonHeaders;
            Edge.body :=
              Some (JObject
                      [ (js "response", JString (js "Hola amigo"));
                        (js "translation", JString (js "Translation not available"));
                        (js "tip", JNull) ]) |}.
Proof.
  split; [reflexivity|].
  refine (proj1 (C9_reply_that_is_not_json_falls_back
                   (Edge.replying (js "sk-test") (js "Hola amigo")) postRequest
                   _ (js "sk-test") (Edge.completion (js "Hola amigo")) _
                   (js "Hola amigo") _ _ _ _ _ _ _ _ _));
    reflexivity.
Defined.

(* ================================================================= *)
(** ** The model at work *)

(** The reply of the specification: the function parses it and the
    component renders its three members. *)
Example structured_reply_is_rendered :
  let raw := jsq "{'response':'Hola','translation':'Hello','tip':'Use formal greetings'}" in
  exists answer,
    Edge.run (Edge.replying (js "sk-test") raw) (Edge.serve postRequest)
    = Returned answer
    /\ Edge.status answer = 200
    /\ parseableAsStructured raw = true
    /\ map (fun m => (msg_role m, msg_content m, msg_translation m, msg_tip m))
           (appended (log (Submit demo
                             (answering 1700000001000 (js "2023-11-14T22:13:21.000Z")
                                        (refused (js "unused")) (fun _ => ack)
                                        (Fulfilled (asFetched answer)))
                             holaTyped)))
       = [ (role_user, VStr (js "Hola"), VUndefined, VUndefined);
           (role_assistant, VStr (js "Hola"), VStr (js "Hello"),
            VStr (js "Use formal greetings")) ].
Proof. eexists. repeat split; vm_compute; reflexivity. Qed.

(** The guard reads the state of the render that made the closure: a
    call of the closure of the render before the first Submit, made while
    that Submit waits for the inference service, is not dropped, whereas
    the closure of the latest render is. *)
Remark stale_closure_is_not_blocked :
  exists w1 l1,
    suspended steady 1 (handleSend demo (state holaTyped)) holaTyped = Some (w1, l1)
    /\ Submit demo steady w1 = idle w1
    /\ List.length (appended (log (run steady (handleSend demo (state holaTyped)) w1)))
       = 2%nat.
Proof. eexists _, _. repeat split; vm_compute; reflexivity. Qed.

(** After a failed exchange the apology is counted too: the second
    message of the session brings the counter to 5 with three rows
    stored. *)
Remark counter_drifts_after_failed_exchange :
  completion adiosSent = Returned tt
  /\ map conv_message_count (conversations (store (final adiosSent))) = [5]
  /\ List.length (messages_table (store (final adiosSent))) = 3%nat.
Proof. vm_compute. repeat split. Qed.

(* ================================================================= *)
(** ** More of the chat component *)

Lemma jsstring_eqb_eq (a b : jsstring) : jsstring_eqb a b = true <-> a = b.
Proof.
  unfold jsstring_eqb. destruct (list_eq_dec N.eq_dec a b); split;
    intros; congruence.
Qed.

(** An Initialize that does not get its row changes nothing. *)
Lemma Initialize_without_row (P : Props) (env : Env) (w : World) :
  (forall d, ~ createdWith d (log (Initialize P env w))) ->
  final (Initialize P env w) = w.
Proof.
  unfold createdWith, Initialize, run, initializeConversation.
  destruct (user P) as [u|]; [|reflexivity].
  unfold await, call. cbn -[js welcomeMessage].
  destruct (env 0%nat _) as [[[d|] [e|]]|x]; cbn -[js welcomeMessage];
    intros H; try (destruct w as [st db]; reflexivity).
  exfalso. apply (H d). reflexivity.
Qed.

(** X1: when Initialize does not get the row of a new conversation (no
    signed-in user, an error, no data, or a rejected request), it leaves
    the component and the store as they were, shows nothing of the
    failure, and, in a session that had no conversation, every later
    Submit is dropped whatever is typed. *)
Theorem failed_Initialize_leaves_the_session_unusable
        (P : Props) (env : Env) (w : World) :
  conversationId (state w) = None ->
  (forall d, ~ createdWith d (log (Initialize P env w))) ->
  final (Initialize P env w) = w
  /\ inserted (log (Initialize P env w)) = []
  /\ forall env' text,
      Submit P env' (typeText text (final (Initialize P env w)))
      = idle (typeText text (final (Initialize P env w))).
Proof.
  intros Hc H. pose proof (Initialize_without_row P env w H) as E.
  split; [exact E|]. split.
  - unfold Initialize, run, initializeConversation.
    destruct (user P) as [u|]; [|reflexivity].
    unfold await, call. cbn -[js welcomeMessage].
    destruct (env 0%nat _) as [[[d|] [e|]]|x]; reflexivity.
  - intros env' text. rewrite E. apply Submit_blocked, blocked_true.
    right. right. exact Hc.
Qed.

Lemma failed_Initialize_witness :
  let env := answering 0 [] (refused (js "permission denied")) (fun _ => ack)
                       (success holaReply) in
  final (Initialize demo env (initialWorld emptyStore)) = initialWorld emptyStore
  /\ inserted (log (Initialize demo env (initialWorld emptyStore))) = []
  /\ forall env' text,
      Submit demo env' (typeText text (final (Initialize demo env (initialWorld emptyStore))))
      = idle (typeText text (final (Initialize demo env (initialWorld emptyStore)))).
Proof.
  intros env.
  apply (failed_Initialize_leaves_the_session_unusable demo env (initialWorld emptyStore)).
  - reflexivity.
  - intros d H. vm_compute in H. discriminate H.
Defined.

(** What an Initialize that gets the row [d] does. *)
Lemma Initialize_with_row (P : Props) (env : Env) (w : World) (d : ConversationRow) :
  createdWith d (log (Initialize P env w)) ->
  exists u,
    user P = Some u
    /\ events (log (Initialize P env w))
       = [ ConversationsInsert
             {| ci_user_id := user_id u;
                ci_language_code := lang_code (language P);
                ci_title := lang_name (language P) ++ js " Practice";
                ci_difficulty := lang_difficulty_level (language P) |};
           SetConversationId (conv_id d);
           SetMessages (Replace [welcomeMessage (language P)]) ]
    /\ final (Initialize P env w)
       = {| state := {| messages := [welcomeMessage (language P)];
                        input := input (state w);
                        loading := loading (state w);
                        conversationId := Some (conv_id d) |};
            store := {| conversations := conversations (store w) ++ [d];
                        messages_table := messages_table (store w) |} |}.
Proof.
  unfold createdWith, Initialize, run, initializeConversation.
  destruct (user P) as [u|] eqn:U; [|discriminate].
  unfold await, call. cbn -[js welcomeMessage].
  destruct (env 0%nat _) as [[[d'|] [e|]]|x]; cbn -[js welcomeMessage];
    intros H; try discriminate H.
  injection H as ->. exists u. repeat split.
Qed.

(** X2: when Initialize gets the row [d], it issues the one creation
    request with the user, the language code, the title made of the
    language name, and the level; it stores [d], keeps its identifier, and
    every insert and every counter update of the next Submit is addressed
    to that identifier. *)
Theorem Initialize_row_identifies_the_session
        (P : Props) (env env' : Env) (w : World) (d : ConversationRow)
        (text : jsstring) :
  createdWith d (log (Initialize P env w)) ->
  let w1 := typeText text (final (Initialize P env w)) in
  (exists u,
      user P = Some u
      /\ events (log (Initialize P env w))
         = [ ConversationsInsert
               {| ci_user_id := user_id u;
                  ci_language_code := lang_code (language P);
                  ci_title := lang_name (language P) ++ js " Practice";
                  ci_difficulty := lang_difficulty_level (language P) |};
             SetConversationId (conv_id d);
             SetMessages (Replace [welcomeMessage (language P)]) ])
  /\ conversations (store w1) = conversations (store w) ++ [d]
  /\ conversationId (state w1) = Some (conv_id d)
  /\ Forall (fun row => mi_conversation_id row = conv_id d)
            (inserted (log (Submit P env' w1)))
  /\ Forall (fun i => i = conv_id d) (updatedIds (log (Submit P env' w1))).
Proof.
  intros H w1. destruct (Initialize_with_row P env w d H) as (u & U & Ev & F).
  split; [exists u; split; assumption|].
  assert (Hid : conversationId (state w1) = Some (conv_id d))
    by (subst w1; rewrite F; reflexivity).
  split; [subst w1; rewrite F; reflexivity|]. split; [exact Hid|].
  clearbody w1. clear F Ev H.
  destruct (blocked (state w1)) eqn:B.
  - rewrite Submit_blocked by exact B. split; constructor.
  - run_call B; rewrite Hid in Hi; injection Hi as <-;
      split; repeat constructor.
Qed.

Lemma Initialize_row_witness :
  let d := createdRow (js "c-1") (js "2023-11-14T22:13:20.000Z") demo learner in
  conversationId (state holaTyped) = Some (js "c-1")
  /\ Forall (fun row => mi_conversation_id row = js "c-1") (inserted (log holaSent))
  /\ Forall (fun i => i = js "c-1") (updatedIds (log holaSent)).
Proof.
  intros d.
  pose proof (Initialize_row_identifies_the_session
                demo creating steady (initialWorld emptyStore) d (js "Hola") eq_refl)
    as (_ & _ & H1 & H2 & H3).
  exact (conj H1 (conj H2 H3)).
Defined.

(** X3: the send button and the guard of [handleSend].  When the button
    is disabled a Submit would do nothing; when it is enabled and the
    session has a conversation, a Submit goes through (it appends the user
    turn); when it is enabled and there is no conversation, the click is
    silently dropped.  The Enter key without Shift prevents the default
    action and starts the same call; any other key, and Enter with Shift,
    does neither. *)
Theorem send_button_and_guard (P : Props) (env : Env) (w : World) :
  (sendDisabled (state w) = true -> Submit P env w = idle w)
  /\ (forall i,
        sendDisabled (state w) = false ->
        conversationId (state w) = Some i -> truthy i = true ->
        exists rest,
          appended (log (Submit P env w))
          = userMessage (env 0%nat DateNow) (state w) :: rest)
  /\ (sendDisabled (state w) = false -> conversationId (state w) = None ->
      Submit P env w = idle w)
  /\ (forall e,
        (key e = js "Enter" /\ shiftKey e = false ->
         defaultPrevented (handleKeyPress P (state w) e) = true
         /\ started (handleKeyPress P (state w) e) = Some (handleSend P (state w)))
        /\ (key e <> js "Enter" \/ shiftKey e = true ->
            defaultPrevented (handleKeyPress P (state w) e) = false
            /\ started (handleKeyPress P (state w) e) = None))
  /\ (inputDisabled (state w) = true -> sendDisabled (state w) = true).
Proof.
  unfold sendDisabled, inputDisabled.
  split; [|split; [|split; [|split]]].
  - intros H. apply Submit_blocked. unfold blocked.
    apply orb_true_iff in H as [H | H]; rewrite H;
      rewrite ?orb_true_r; reflexivity.
  - intros i H Hi Hti. apply orb_false_iff in H as [Hl Ht].
    assert (B : blocked (state w) = false).
    { unfold blocked. rewrite Ht, Hi, Hti, Hl. reflexivity. }
    run_call B; eexists; reflexivity.
  - intros _ Hc. apply Submit_blocked, blocked_true. right. right. exact Hc.
  - intros e. unfold handleKeyPress. split.
    + intros [K S]. rewrite S, (proj2 (jsstring_eqb_eq _ _) K). split; reflexivity.
    + intros [K | S].
      * destruct (jsstring_eqb (key e) (js "Enter")) eqn:B; [|split; reflexivity].
        apply jsstring_eqb_eq in B. contradiction.
      * rewrite S, andb_false_r. split; reflexivity.
  - intros H. rewrite H. reflexivity.
Qed.

Lemma send_button_witness :
  sendDisabled (state holaTyped) = false
  /\ (exists rest,
         appended (log holaSent)
         = userMessage (steady 0%nat DateNow) (state holaTyped) :: rest)
  /\ Submit demo steady (typeText (js "Hola") (initialWorld emptyStore))
     = idle (typeText (js "Hola") (initialWorld emptyStore))
  /\ Submit demo steady mounted = idle mounted
  /\ defaultPrevented
       (handleKeyPress demo (state holaTyped) {| key := js "Enter"; shiftKey := false |})
     = true
  /\ defaultPrevented
       (handleKeyPress demo (state holaTyped) {| key := js "Enter"; shiftKey := true |})
     = false.
Proof.
  split; [reflexivity|]. split; [|split; [|split; [|split]]].
  - exact (proj1 (proj2 (send_button_and_guard demo steady holaTyped))
                 (js "c-1") eq_refl eq_refl eq_refl).
  - exact (proj1 (proj2 (proj2 (send_button_and_guard
                                  demo steady
                                  (typeText (js "Hola") (initialWorld emptyStore)))))
                 eq_refl eq_refl).
  - exact (proj1 (send_button_and_guard demo steady mounted) eq_refl).
  - exact (proj1 (proj1 (proj1 (proj2 (proj2 (proj2 (send_button_and_guard
                                                       demo steady holaTyped))))
                               {| key := js "Enter"; shiftKey := false |})
                        (conj eq_refl eq_refl))).
  - exact (proj1 (proj2 (proj1 (proj2 (proj2 (proj2 (send_button_and_guard
                                                       demo steady holaTyped))))
                               {| key := js "Enter"; shiftKey := true |})
                        (or_intror eq_refl))).
Defined.

(** X4: a Submit never removes, reorders or changes a turn: the sequence
    it leaves is the one it found followed by at most three new turns, a
    user turn first and assistant turns after it; it adds none exactly
    when its guard stops it; and it keeps the conversation identifier. *)
Theorem Submit_only_appends_turns (P : Props) (env : Env) (w : World) :
  exists new,
    messages (state (final (Submit P env w))) = messages (state w) ++ new
    /\ new = appended (log (Submit P env w))
    /\ (List.length new <= 3)%nat
    /\ (new = [] <-> blocked (state w) = true)
    /\ (forall m rest, new = m :: rest ->
                       isUserTurn m = true /\ existsb isUserTurn rest = false)
    /\ conversationId (state (final (Submit P env w))) = conversationId (state w).
Proof.
  destruct (blocked (state w)) eqn:H.
  - rewrite Submit_blocked by exact H. exists []. rewrite app_nil_r.
    repeat split; auto; try discriminate.
  - run_call H; rewrite <- ?app_assoc; eexists;
      (split; [reflexivity|]); (split; [reflexivity|]);
      (split; [simpl; lia|]);
      (split; [split; discriminate|]);
      (split; [|reflexivity]);
      intros m rest E; injection E as <- <-; split; reflexivity.
Qed.

Lemma update_row_frame (patch : ConversationUpdate) (i : jsstring) (r : ConversationRow) :
  conv_id (update_row patch i r) = conv_id r
  /\ conv_user_id (update_row patch i r) = conv_user_id r
  /\ conv_language_code (update_row patch i r) = conv_language_code r
  /\ conv_title (update_row patch i r) = conv_title r
  /\ conv_difficulty (update_row patch i r) = conv_difficulty r
  /\ (conv_id r <> i -> update_row patch i r = r).
Proof.
  unfold update_row. destruct (jsstring_eqb (conv_id r) i) eqn:E;
    repeat split; intros H.
  apply jsstring_eqb_eq in E. contradiction.
Qed.

Lemma Forall2_same (i : jsstring) (l : list ConversationRow) :
  Forall2 (sameButCounter i) l l.
Proof. induction l; constructor; auto. repeat split. Qed.

Lemma Forall2_updated (patch : ConversationUpdate) (i : jsstring)
      (l : list ConversationRow) :
  Forall2 (sameButCounter i) l (map (update_row patch i) l).
Proof.
  induction l as [|r l IH]; simpl; constructor; [|exact IH].
  apply update_row_frame.
Qed.

(** X5: what a Submit does to the store.  The table of messages keeps
    its rows and gains at most two, each one a row the call asked to
    insert; no conversation row is added or removed, the rows of other
    conversations are untouched, and of the row of this conversation only
    the counter and the time of the last update can change. *)
Theorem Submit_store_frame (P : Props) (env : Env) (w : World) (i : jsstring) :
  conversationId (state w) = Some i ->
  (exists rows,
      messages_table (store (final (Submit P env w)))
      = messages_table (store w) ++ rows
      /\ (List.length rows <= 2)%nat
      /\ incl rows (inserted (log (Submit P env w))))
  /\ Forall2 (sameButCounter i)
             (conversations (store w))
             (conversations (store (final (Submit P env w)))).
Proof.
  intros Hc. destruct (blocked (state w)) eqn:H.
  - rewrite Submit_blocked by exact H. split.
    + exists []. rewrite app_nil_r. repeat split; [simpl; lia | intros x []].
    + apply Forall2_same.
  - run_call H; rewrite Hc in Hi; injection Hi as <-;
      repeat match goal with
             | |- context [error ?a] => destruct (error a)
             end; evaluate; rewrite <- ?app_assoc;
      (split;
       [ eexists; split;
         [ first [reflexivity | symmetry; apply app_nil_r]
         | split; [simpl; lia | intros ? Hx; simpl in Hx |- *; tauto] ]
       | first [apply Forall2_same | apply Forall2_updated] ]).
Qed.

Lemma Submit_store_witness :
  (exists rows,
      messages_table (store (final holaSent))
      = messages_table (store holaTyped) ++ rows
      /\ (List.length rows <= 2)%nat
      /\ incl rows (inserted (log holaSent)))
  /\ Forall2 (sameButCounter (js "c-1"))
             (conversations (store holaTyped))
             (conversations (store (final holaSent))).
Proof.
  exact (Submit_store_frame demo steady holaTyped (js "c-1") eq_refl).
Defined.

(** X6: the requests of a Submit are, in this order, the insert of the
    user turn, the inference call, the insert of the assistant turn and
    the update of the counter, or a beginning of that sequence: never two
    inference calls, no assistant row before the reply, no update before
    both inserts have settled. *)
Theorem Submit_requests_in_order (P : Props) (env : Env) (w : World) :
  exists k,
    requestKinds (log (Submit P env w)) = firstn k [KInsert; KFetch; KInsert; KUpdate]
    /\ (blocked (state w) = true <-> k = 0%nat).
Proof.
  destruct (blocked (state w)) eqn:H.
  - rewrite Submit_blocked by exact H. exists 0%nat. repeat split.
  - run_call H;
      first [ exists 1%nat; split; [reflexivity | split; discriminate]
            | exists 2%nat; split; [reflexivity | split; discriminate]
            | exists 3%nat; split; [reflexivity | split; discriminate]
            | exists 4%nat; split; [reflexivity | split; discriminate] ].
Qed.

(** *** The text of a user turn *)

Lemma trimStart_split (s : jsstring) :
  exists p, s = p ++ trimStart s /\ whitespaceOnly p = true.
Proof.
  induction s as [|c r (p & E & W)]; simpl.
  - exists []. split; reflexivity.
  - destruct (isWhiteSpace c) eqn:C.
    + exists (c :: p). split; [simpl; congruence|].
      unfold whitespaceOnly in *. simpl. rewrite C. exact W.
    + exists []. split; reflexivity.
Qed.

Lemma trimStart_head (s : jsstring) (c : N) (r : jsstring) :
  trimStart s = c :: r -> isWhiteSpace c = false.
Proof.
  induction s as [|a s IH]; simpl; [discriminate|].
  destruct (isWhiteSpace a) eqn:A; [exact IH|].
  intros E. injection E as <- _. exact A.
Qed.

Lemma trimStart_fixed (s : jsstring) :
  match s with [] => True | c :: _ => isWhiteSpace c = false end ->
  trimStart s = s.
Proof. destruct s as [|c r]; simpl; [reflexivity|]. intros ->. reflexivity. Qed.

(** What [trim] keeps: nothing, or the text between a run of white space
    and another, which itself starts and ends with something else. *)
Lemma trim_spec (s : jsstring) :
  trim s = []
  \/ exists c r p q,
      trim s = c :: r
      /\ isWhiteSpace c = false
      /\ isWhiteSpace (last (c :: r) c) = false
      /\ s = p ++ (c :: r) ++ q
      /\ whitespaceOnly p = true
      /\ whitespaceOnly q = true.
Proof.
  unfold trim, trimEnd.
  destruct (trimStart_split s) as (p1 & E1 & W1).
  destruct (trimStart_split (rev (trimStart s))) as (p2 & E2 & W2).
  remember (trimStart (rev (trimStart s))) as u eqn:U.
  destruct u as [|c' r']; [left; reflexivity|]. right.
  assert (Hc' : isWhiteSpace c' = false) by (eapply trimStart_head; eauto).
  assert (Et : trimStart s = rev (c' :: r') ++ rev p2).
  { rewrite <- rev_app_distr, <- E2, rev_involutive. reflexivity. }
  remember (rev (c' :: r')) as t eqn:T.
  destruct t as [|c r].
  { apply (f_equal (@List.length N)) in T. simpl in T.
    rewrite length_app in T. simpl in T. lia. }
  exists c, r, p1, (rev p2). split; [reflexivity|]. split.
  { rewrite Et in *. simpl in *. eapply trimStart_head. eassumption. }
  split.
  { rewrite T. simpl. rewrite last_last. exact Hc'. }
  split.
  { rewrite E1 at 1. rewrite Et. reflexivity. }
  split; [exact W1|]. rewrite whitespaceOnly_rev. exact W2.
Qed.

Lemma trim_clean (s : jsstring) :
  whitespaceOnly s = false -> cleanTextOf s (VStr (trim s)).
Proof.
  intros H. destruct (trim_spec s) as [E | (c & r & p & q & E & Hc & Hl & Es & Wp & Wq)].
  - apply trim_nil in E. congruence.
  - exists c, r, p, q. rewrite E. repeat split; assumption.
Qed.

(** [trim] twice is [trim]. *)
Lemma trim_idempotent (s : jsstring) : trim (trim s) = trim s.
Proof.
  destruct (trim_spec s) as [E | (c & r & p & q & E & Hc & Hl & _)];
    rewrite E; [reflexivity|].
  unfold trim, trimEnd. rewrite (trimStart_fixed (c :: r)) by exact Hc.
  rewrite trimStart_fixed; [apply rev_involutive|].
  destruct (rev (c :: r)) as [|a t] eqn:R; [exact I|].
  assert (L : last (c :: r) c = a).
  { rewrite <- (rev_involutive (c :: r)), R. simpl. apply last_last. }
  rewrite <- L. exact Hl.
Qed.

(** X7: the text of every user turn a Submit appends, and of every user
    row it asks the store to insert, is never empty, neither starts nor
    ends with white space, and is the typed text less a run of white
    space at each end: nothing inside the text is changed. *)
Theorem user_text_is_clean (P : Props) (env : Env) (w : World) :
  Forall (fun m => isUserTurn m = true ->
                   cleanTextOf (input (state w)) (msg_content m))
         (appended (log (Submit P env w)))
  /\ Forall (fun row => mi_role row = role_user ->
                        cleanTextOf (input (state w)) (mi_content row))
            (inserted (log (Submit P env w))).
Proof.
  destruct (blocked (state w)) eqn:H.
  - rewrite Submit_blocked by exact H. split; constructor.
  - pose proof (blocked_false _ H) as (_ & _ & _ & Hws & _).
    pose proof (trim_clean _ Hws) as C.
    run_call H; split; repeat constructor; intros R;
      try discriminate R; exact C.
Qed.

(** X8: when the inference call succeeds with a body that parses to a
    value other than [null], the call appends, after the user turn, an
    assistant turn whose text, translation and tip are the members
    [response], [translation] and [tip] of that value, each [undefined]
    when the value has no such member; it asks the store to insert both
    turns, the tip being no part of the row.  A value that is not an
    object therefore gives a turn with no text. *)
Theorem parsed_reply_is_rendered_member_by_member
        (P : Props) (env : Env) (w : World) (i : jsstring) (v : JValue) :
  conversationId (state w) = Some i ->
  repliedWith v (log (Submit P env w)) ->
  v <> JNull ->
  let um := userMessage (env 0%nat DateNow) (state w) in
  exists t rest,
    appended (log (Submit P env w)) = um :: replyTurn t v :: rest
    /\ inserted (log (Submit P env w)) = [row_of i um; row_of i (replyTurn t v)]
    /\ ((forall ms, v <> JObject ms) ->
        msg_content (replyTurn t v) = VUndefined
        /\ msg_translation (replyTurn t v) = VUndefined
        /\ msg_tip (replyTurn t v) = VUndefined).
Proof.
  intros Hc. destruct (blocked (state w)) eqn:H.
  - rewrite Submit_blocked by exact H. intros (resp & R & _). discriminate R.
  - run_call H; rewrite Hc in Hi; injection Hi as <-;
      intros (resp & R & Hok & Hj) Hv; try discriminate R;
      injection R as <-; try congruence;
      match goal with
      | A : json ?a = Fulfilled _ |- _ =>
        rewrite A in Hj; injection Hj as Ev; subst v
      end; try congruence;
      eexists _, _; (split; [reflexivity|]); (split; [reflexivity|]);
      intros Hms; try (exfalso; eapply Hms; reflexivity);
      repeat split.
Qed.

Lemma parsed_reply_witness :
  exists t rest,
    appended (log holaSent)
    = userMessage (steady 0%nat DateNow) (state holaTyped) :: replyTurn t holaReply :: rest
    /\ inserted (log holaSent)
       = [ row_of (js "c-1") (userMessage (steady 0%nat DateNow) (state holaTyped));
           row_of (js "c-1") (replyTurn t holaReply) ].
Proof.
  destruct (parsed_reply_is_rendered_member_by_member
              demo steady holaTyped (js "c-1") holaReply eq_refl) as (t & rest & A & B & _).
  - eexists. repeat split.
  - discriminate.
  - exists t, rest. split; [exact A | exact B].
Defined.

Lemma loading_cleared_witness :
  blocked (state holaTyped) = false
  /\ userInsertRejected (log holaFailed) = false
  /\ loading (state (final holaFailed)) = false
  /\ completion holaFailed = Returned tt.
Proof.
  split; [reflexivity|]. split; [reflexivity|].
  exact (loading_cleared demo offline holaTyped eq_refl eq_refl).
Defined.

(** X10: in every session reached by Initialize, typing and Submit: while
    there is no conversation identifier there is no turn and the flag is
    clear; once there is one, the first turn is the greeting of the
    language and no later turn bears its identifier, so the greeting is
    never duplicated, moved or sent as history. *)
Theorem reachable_session_shape (P : Props) (w : World) :
  reachable P w ->
  match conversationId (state w) with
  | None => messages (state w) = [] /\ loading (state w) = false
  | Some _ =>
    exists rest,
      messages (state w) = welcomeMessage (language P) :: rest
      /\ forallb notWelcome rest = true
      /\ conversationHistory (state w) = map reduced rest
  end.
Proof.
  induction 1 as [db | w text _ IH | w env _ IH | w env _ IH].
  - split; reflexivity.
  - exact IH.
  - destruct (Initialize_final P env w) as [E | [i E]]; rewrite E.
    + exact IH.
    + exists []. repeat split.
  - destruct (conversationId (state w)) as [i|] eqn:Hc.
    + destruct (Submit_appends P env w) as (new & Em & Hn & Ec).
      destruct IH as (rest & Er & Hr & _).
      rewrite Ec, Hc. exists (rest ++ new). rewrite Em, Er.
      assert (F : forallb notWelcome (rest ++ new) = true)
        by (rewrite forallb_app, Hr, Hn; reflexivity).
      split; [reflexivity|]. split; [exact F|].
      unfold conversationHistory. rewrite Em, Er. cbn -[js].
      change (filter _ (rest ++ new)) with (filter notWelcome (rest ++ new)).
      rewrite filter_all by exact F. reflexivity.
    + rewrite Submit_blocked by (apply blocked_true; auto).
      simpl. rewrite Hc. exact IH.
Qed.

Lemma reachable_session_witness :
  exists rest,
    messages (state adiosTyped) = welcomeMessage spanish :: rest
    /\ forallb notWelcome rest = true
    /\ conversationHistory (state adiosTyped) = map reduced rest.
Proof.
  refine (reachable_session_shape demo adiosTyped _).
  unfold adiosTyped, holaFailed, holaTyped, mounted.
  apply reach_type, reach_submit, reach_type, reach_init, reach_mount.
Defined.

(* ================================================================= *)
(** ** More of the edge function *)

Ltac edge_eval :=
  cbn -[js Edge.getSystemPrompt Edge.firstChoiceContent Edge.parsedResponse
        Edge.corsHeaders Edge.jsonHeaders Edge.errorBody].

Ltac edge_cases :=
  unfold Edge.serve, Edge.perform, Edge.call, Edge.await, trigger;
  repeat (edge_eval;
          match goal with
          | |- context [if jsstring_eqb (Edge.req_method ?r) ?x then _ else _] =>
            let M := fresh "M" in destruct (jsstring_eqb (Edge.req_method r) x) eqn:M
          | |- context [settle (Edge.req_json ?r)] =>
            let B := fresh "B" in destruct (Edge.req_json r) eqn:B
          | |- context [match ?env (Edge.EnvGet ?n) with _ => _ end] =>
            let K := fresh "K" in destruct (env (Edge.EnvGet n)) as [[|? ?]|] eqn:K
          | |- context [settle (?env (Edge.OpenAIFetch ?u ?i))] =>
            let U := fresh "U" in destruct (env (Edge.OpenAIFetch u i)) eqn:U
          | |- context [negb (Edge.up_ok ?r)] =>
            let O := fresh "O" in destruct (Edge.up_ok r) eqn:O
          | |- context [settle (Edge.up_text ?r)] =>
            let T := fresh "T" in destruct (Edge.up_text r) eqn:T
          | |- context [settle (Edge.up_json ?r)] =>
            let J := fresh "J" in destruct (Edge.up_json r) eqn:J
          | |- context [settle (Edge.firstChoiceContent ?d)] =>
            let C := fresh "C" in destruct (Edge.firstChoiceContent d) eqn:C
          end);
  edge_eval.

Lemma errorBody_message (x : Exn) :
  exists msg,
    msg <> [] /\ Edge.errorBody x = JObject [ (js "error", JString msg) ].
Proof.
  unfold Edge.errorBody. destruct (exn_message x) as [|c k]; simpl.
  - eexists. split; [|reflexivity]. discriminate.
  - eexists. split; [|reflexivity]. discriminate.
Qed.

(** X11: the function answers every request, in every environment: it
    never throws; its status is 200 or 500; its response always carries
    the CORS headers; a 500 always has a body [{error: msg}] with a
    message that is not empty; and it calls the completion API at most
    once. *)
Theorem serve_always_answers (env : Edge.Env) (req : Edge.Request) :
  exists r,
    Edge.run env (Edge.serve req) = Returned r
    /\ (Edge.status r = 200 \/ Edge.status r = 500)
    /\ incl Edge.corsHeaders (Edge.headers r)
    /\ (Edge.status r = 500 ->
        exists msg,
          msg <> [] /\ Edge.body r = Some (JObject [ (js "error", JString msg) ]))
    /\ (List.length (upstreamCalls (edgeEvents env (Edge.serve req))) <= 1)%nat.
Proof.
  edge_cases; eexists; (split; [reflexivity|]); edge_eval;
    (split; [first [left; reflexivity | right; reflexivity]|]);
    (split; [first [apply incl_refl | apply incl_appl, incl_refl]|]);
    (split; [|simpl; lia]);
    intros S; try discriminate S;
    match goal with
    | |- context [Edge.errorBody ?x] =>
      destruct (errorBody_message x) as (msg & Hm & Eb); exists msg;
      rewrite Eb; split; [exact Hm | reflexivity]
    end.
Qed.

(** X12: the completion API is called only for a request that is not a
    preflight, whose body was read as a [RequestBody], and with a key that
    is not empty; then it is called once, at the chat completions address,
    by [POST], with exactly two headers, the key as bearer token and the
    JSON content type, and with the body made of the model [gpt-4o-mini],
    the temperature 0.7, at most 500 tokens and, as messages, one system
    message, the prompt for the language name and the level of the
    request, followed by the messages of the request, unchanged and in
    order. *)
Theorem serve_calls_upstream_only_with_body_and_key
        (env : Edge.Env) (req : Edge.Request) (url : jsstring)
        (init : Edge.UpstreamInit) :
  In (url, init) (upstreamCalls (edgeEvents env (Edge.serve req))) ->
  exists b c k,
    jsstring_eqb (Edge.req_method req) (js "OPTIONS") = false
    /\ Edge.req_json req = Fulfilled b
    /\ env (Edge.EnvGet (js "OPENAI_API_KEY")) = Some (c :: k)
    /\ upstreamCalls (edgeEvents env (Edge.serve req)) = [(url, init)]
    /\ url = js "https://api.openai.com/v1/chat/completions"
    /\ init
       = {| Edge.up_method := js "POST";
            Edge.up_headers :=
              [ (js "Authorization", js "Bearer " ++ c :: k);
                (js "Content-Type", js "application/json") ];
            Edge.up_body :=
              {| Edge.model := js "gpt-4o-mini";
                 Edge.api_messages :=
                   {| Edge.role := js "system";
                      Edge.content :=
                        VStr (Edge.getSystemPrompt (Edge.languageName b)
                                                   (Edge.difficulty b)) |}
                     :: Edge.messages b;
                 Edge.temperature := js "0.7";
                 Edge.max_tokens := 500 |} |}.
Proof.
  edge_cases; intros H; simpl in H;
    try contradiction; destruct H as [H | []];
    injection H as <- <-;
    eexists _, _, _; repeat split; eassumption.
Qed.

Lemma serve_calls_upstream_witness :
  exists b c k,
    jsstring_eqb (Edge.req_method postRequest) (js "OPTIONS") = false
    /\ Edge.req_json postRequest = Fulfilled b
    /\ Edge.replying (js "sk-test") (js "Hola amigo") (Edge.EnvGet (js "OPENAI_API_KEY"))
       = Some (c :: k)
    /\ Edge.messages b
       = [ {| Edge.role := js "user"; Edge.content := VStr (js "Hola") |} ]
    /\ map (fun ui => Edge.temperature (Edge.up_body (snd ui)))
           (upstreamCalls (edgeEvents (Edge.replying (js "sk-test") (js "Hola amigo"))
                                      (Edge.serve postRequest)))
       = [ js "0.7" ].
Proof.
  destruct (upstreamCalls (edgeEvents (Edge.replying (js "sk-test") (js "Hola amigo"))
                                      (Edge.serve postRequest))) as [|[url init] rest] eqn:U.
  - vm_compute in U. discriminate U.
  - destruct (serve_calls_upstream_only_with_body_and_key
                (Edge.replying (js "sk-test") (js "Hola amigo")) postRequest url init)
      as (b & c & k & M & B & K & U1 & _ & I).
    + rewrite U. left. reflexivity.
    + exists b, c, k. repeat split; try assumption.
      * vm_compute in B. injection B as <-. reflexivity.
      * rewrite U in U1. injection U1 as ->. rewrite I. reflexivity.
Defined.

(** X13: a preflight request ([OPTIONS]) is answered 200 with the CORS
    headers and no body, and nothing else happens: the body of the request
    is not read, no variable of the environment is read, the completion
    API is not called and nothing is logged. *)
Theorem preflight_touches_nothing (env : Edge.Env) (req : Edge.Request) :
  Edge.req_method req = js "OPTIONS" ->
  Edge.run env (Edge.serve req)
  = Returned {| Edge.status := 200; Edge.headers := Edge.corsHeaders;
                Edge.body := None |}
  /\ edgeEvents env (Edge.serve req) = [].
Proof.
  intros M. unfold Edge.serve. rewrite M. split; reflexivity.
Qed.

Lemma preflight_witness :
  let req := {| Edge.req_method := js "OPTIONS";
                Edge.req_json := Rejected (JsSyntaxError (js "Unexpected end of JSON input")) |} in
  Edge.run (Edge.replying [] []) (Edge.serve req)
  = Returned {| Edge.status := 200; Edge.headers := Edge.corsHeaders;
                Edge.body := None |}
  /\ edgeEvents (Edge.replying [] []) (Edge.serve req) = [].
Proof.
  intros req. apply (preflight_touches_nothing (Edge.replying [] []) req). reflexivity.
Defined.

(** The answer of the function when it has no key. *)
Lemma serve_without_key (env : Edge.Env) (req : Edge.Request) (b : Edge.RequestBody) :
  jsstring_eqb (Edge.req_method req) (js "OPTIONS") = false ->
  Edge.req_json req = Fulfilled b ->
  env (Edge.EnvGet (js "OPENAI_API_KEY")) = None
  \/ env (Edge.EnvGet (js "OPENAI_API_KEY")) = Some [] ->
  Edge.run env (Edge.serve req)
  = Returned {| Edge.status := 500; Edge.headers := Edge.jsonHeaders;
                Edge.body :=
                  Some (JObject [ (js "error",
                                   JString (js "OpenAI API key not configured")) ]) |}.
Proof.
  intros M B K. unfold Edge.serve. rewrite M, B.
  unfold Edge.perform, Edge.call, trigger. edge_eval.
  destruct K as [K | K]; rewrite K; edge_eval; vm_compute; reflexivity.
Qed.

(** X14: when the key is missing or empty, a request that is not a
    preflight and whose body was read as a [RequestBody] is answered 500
    with the body [{error: "OpenAI API key not configured"}]; the key is
    the only variable read, and the completion API is not called. *)
Theorem missing_key_is_reported (env : Edge.Env) (req : Edge.Request)
        (b : Edge.RequestBody) :
  jsstring_eqb (Edge.req_method req) (js "OPTIONS") = false ->
  Edge.req_json req = Fulfilled b ->
  env (Edge.EnvGet (js "OPENAI_API_KEY")) = None
  \/ env (Edge.EnvGet (js "OPENAI_API_KEY")) = Some [] ->
  Edge.run env (Edge.serve req)
  = Returned {| Edge.status := 500; Edge.headers := Edge.jsonHeaders;
                Edge.body :=
                  Some (JObject [ (js "error",
                                   JString (js "OpenAI API key not configured")) ]) |}
  /\ envReads (edgeEvents env (Edge.serve req)) = [js "OPENAI_API_KEY"]
  /\ upstreamCalls (edgeEvents env (Edge.serve req)) = [].
Proof.
  intros M B K. split; [exact (serve_without_key env req b M B K)|].
  unfold Edge.serve. rewrite M, B.
  unfold Edge.perform, Edge.call, trigger. edge_eval.
  destruct K as [K | K]; rewrite K; edge_eval; split; reflexivity.
Qed.

Lemma missing_key_witness :
  Edge.run (Edge.replying [] (js "Hola")) (Edge.serve postRequest)
  = Returned {| Edge.status := 500; Edge.headers := Edge.jsonHeaders;
                Edge.body :=
                  Some (JObject [ (js "error",
                                   JString (js "OpenAI API key not configured")) ]) |}
  /\ envReads (edgeEvents (Edge.replying [] (js "Hola")) (Edge.serve postRequest))
     = [js "OPENAI_API_KEY"]
  /\ upstreamCalls (edgeEvents (Edge.replying [] (js "Hola")) (Edge.serve postRequest)) = [].
Proof.
  refine (missing_key_is_reported (Edge.replying [] (js "Hola")) postRequest _ eq_refl eq_refl _).
  right. reflexivity.
Defined.

(** X15: when the completion API answers with a status that is not a
    success, the function answers 500 with
    [{error: "OpenAI API error: " + statusText}]; what the API wrote in its
    body is logged, and is no part of the answer. *)
Theorem upstream_failure_is_reported
        (env : Edge.Env) (req : Edge.Request) (b : Edge.RequestBody)
        (c : N) (k : jsstring) (upstream : Edge.UpstreamResponse)
        (detail : jsstring) :
  jsstring_eqb (Edge.req_method req) (js "OPTIONS") = false ->
  Edge.req_json req = Fulfilled b ->
  env (Edge.EnvGet (js "OPENAI_API_KEY")) = Some (c :: k) ->
  (forall url init, env (Edge.OpenAIFetch url init) = Fulfilled upstream) ->
  Edge.up_ok upstream = false ->
  Edge.up_text upstream = Fulfilled detail ->
  Edge.run env (Edge.serve req)
  = Returned {| Edge.status := 500; Edge.headers := Edge.jsonHeaders;
                Edge.body :=
                  Some (JObject
                          [ (js "error",
                             JString (js "OpenAI API error: "
                                         ++ Edge.up_statusText upstream)) ]) |}
  /\ In (Edge.ConsoleErrorText (js "OpenAI API error:") detail)
        (edgeEvents env (Edge.serve req)).
Proof.
  intros M B K U O T. unfold Edge.serve. rewrite M, B.
  unfold Edge.perform, Edge.call, Edge.await, trigger. edge_eval.
  rewrite K. edge_eval. rewrite U. edge_eval. rewrite O. edge_eval.
  rewrite T. edge_eval. split.
  - unfold Edge.errorBody. simpl exn_message.
    change (js "OpenAI API error: ") with (79 :: tl (js "OpenAI API error: ")).
    reflexivity.
  - right. right. left. reflexivity.
Qed.

Lemma upstream_failure_witness :
  let upstream := {| Edge.up_ok := false; Edge.up_statusText := js "Too Many Requests";
                     Edge.up_text := Fulfilled (js "quota exceeded for org-42");
                     Edge.up_json := Rejected (JsSyntaxError []) |} in
  let env : Edge.Env :=
    fun e => match e as e0 return Edge.Ans e0 with
             | Edge.EnvGet _ => Some (js "sk-test")
             | Edge.OpenAIFetch _ _ => Fulfilled upstream
             | Edge.ConsoleErrorText _ _ => tt
             | Edge.ConsoleErrorExn _ _ => tt
             end in
  Edge.run env (Edge.serve postRequest)
  = Returned {| Edge.status := 500; Edge.headers := Edge.jsonHeaders;
                Edge.body :=
                  Some (JObject
                          [ (js "error",
                             JString (js "OpenAI API error: Too Many Requests")) ]) |}.
Proof.
  intros upstream env.
  refine (proj1 (upstream_failure_is_reported
                   env postRequest _ 115 (js "k-test") upstream
                   (js "quota exceeded for org-42") eq_refl eq_refl _ _ eq_refl eq_refl)).
  - reflexivity.
  - intros url init. reflexivity.
Defined.

(** The answer of the function when the completion API succeeds with the
    content [c]. *)
Lemma serve_content (env : Edge.Env) (req : Edge.Request) (b : Edge.RequestBody)
      (key : jsstring) (upstream : Edge.UpstreamResponse) (data : JValue)
      (c : Value) :
  jsstring_eqb (Edge.req_method req) (js "OPTIONS") = false ->
  Edge.req_json req = Fulfilled b ->
  env (Edge.EnvGet (js "OPENAI_API_KEY")) = Some key ->
  truthy key = true ->
  (forall url init, env (Edge.OpenAIFetch url init) = Fulfilled upstream) ->
  Edge.up_ok upstream = true ->
  Edge.up_json upstream = Fulfilled data ->
  Edge.firstChoiceContent data = Fulfilled c ->
  Edge.run env (Edge.serve req)
  = Returned {| Edge.status := 200; Edge.headers := Edge.jsonHeaders;
                Edge.body := Some (Edge.parsedResponse c) |}.
Proof.
  intros M B K Kt U O J C. unfold Edge.serve. rewrite M, B.
  unfold Edge.perform, Edge.call, Edge.await, trigger. edge_eval.
  rewrite K. destruct key as [|k0 k]; [discriminate Kt|].
  edge_eval. rewrite U. edge_eval. rewrite O. edge_eval.
  rewrite J. edge_eval. rewrite C. reflexivity.
Qed.








(* ================================================================= *)
(** ** The component served by the function *)

(** A Submit whose inference call is answered with a response that counts
    as a failure. *)
Lemma Submit_on_failed_response (P : Props) (env : Env) (w : World) (resp : Response) :
  blocked (state w) = false ->
  (forall n url init, method init = js "POST" ->
                      env n (Fetch url init) = Fulfilled resp) ->
  inferenceFails (Fulfilled resp) = true ->
  userInsertRejected (log (Submit P env w)) = false ->
  exists t,
    messages (state (final (Submit P env w)))
    = messages (state w)
      ++ [userMessage (env 0%nat DateNow) (state w); apologyMessage t]
    /\ loading (state (final (Submit P env w))) = false
    /\ List.length (fetched (log (Submit P env w))) = 1%nat.
Proof.
  intros H Hf Hfail. run_call H; intros R; try discriminate R;
    match goal with
    | A : env _ (Fetch _ _) = _ |- _ =>
      rewrite Hf in A by reflexivity; try discriminate A; injection A as <-
    end;
    simpl in Hfail;
    repeat match goal with
           | A : ok resp = _ |- _ => rewrite A in Hfail; clear A
           | A : json resp = _ |- _ => rewrite A in Hfail; clear A
           end;
    try discriminate Hfail;
    rewrite <- ?app_assoc; eexists; repeat split.
Qed.

(** A Submit whose inference call is answered with a success whose body
    parses to [v], not [null]. *)
Lemma Submit_on_reply (P : Props) (env : Env) (w : World) (v : JValue) :
  blocked (state w) = false ->
  (forall n url init, method init = js "POST" ->
                      env n (Fetch url init)
                      = Fulfilled {| ok := true; json := Fulfilled v |}) ->
  v <> JNull ->
  userInsertRejected (log (Submit P env w)) = false ->
  exists t rest,
    appended (log (Submit P env w))
    = userMessage (env 0%nat DateNow) (state w) :: replyTurn t v :: rest.
Proof.
  intros H Hf Hv. run_call H; intros R; try discriminate R;
    match goal with
    | A : env _ (Fetch _ _) = _ |- _ =>
      rewrite Hf in A by reflexivity; try discriminate A; injection A as <-
    end;
    repeat match goal with
           | A : ok _ = _ |- _ => simpl in A; try discriminate A; clear A
           | A : json _ = _ |- _ =>
             simpl in A; try discriminate A; injection A as E;
             try (exfalso; exact (Hv E)); try subst v
           end;
    try congruence; eexists _, _; reflexivity.
Qed.

Lemma post_is_not_options : jsstring_eqb (js "POST") (js "OPTIONS") = false.
Proof. reflexivity. Qed.

Lemma events_without_key (eenv : Edge.Env) (init : RequestInit) :
  method init = js "POST" ->
  eenv (Edge.EnvGet (js "OPENAI_API_KEY")) = None
  \/ eenv (Edge.EnvGet (js "OPENAI_API_KEY")) = Some [] ->
  upstreamCalls (edgeEvents eenv (Edge.serve (wire init))) = [].
Proof.
  intros Hm K. unfold Edge.serve, wire. cbn [Edge.req_method Edge.req_json].
  rewrite Hm, post_is_not_options.
  unfold Edge.perform, Edge.call, trigger. edge_eval.
  destruct K as [K | K]; rewrite K; reflexivity.
Qed.

(** X17: when the function has no key, every Submit that reaches it ends
    with the apology: the learner sees the user turn and one apology, the
    flag is cleared, and the completion API was not called. *)
Theorem unconfigured_function_gives_the_apology
        (P : Props) (eenv : Edge.Env) (base : Env) (w : World) :
  eenv (Edge.EnvGet (js "OPENAI_API_KEY")) = None
  \/ eenv (Edge.EnvGet (js "OPENAI_API_KEY")) = Some [] ->
  blocked (state w) = false ->
  userInsertRejected (log (Submit P (viaEdge eenv base) w)) = false ->
  (exists t,
      messages (state (final (Submit P (viaEdge eenv base) w)))
      = messages (state w)
        ++ [userMessage (base 0%nat DateNow) (state w); apologyMessage t]
      /\ loading (state (final (Submit P (viaEdge eenv base) w))) = false)
  /\ Forall (fun ui => upstreamCalls (edgeEvents eenv (Edge.serve (wire (snd ui)))) = [])
            (fetched (log (Submit P (viaEdge eenv base) w))).
Proof.
  intros K H R.
  set (resp :=
         asFetched {| Edge.status := 500; Edge.headers := Edge.jsonHeaders;
                      Edge.body :=
                        Some (JObject [ (js "error",
                                         JString (js "OpenAI API key not configured")) ]) |}).
  assert (Hf : forall n url init, method init = js "POST" ->
                                  viaEdge eenv base n (Fetch url init) = Fulfilled resp).
  { intros n url init Hm. unfold viaEdge, servedBy.
    erewrite serve_without_key; [reflexivity | | reflexivity | exact K].
    simpl. rewrite Hm. apply post_is_not_options. }
  split.
  - destruct (Submit_on_failed_response P (viaEdge eenv base) w resp H Hf eq_refl R)
      as (t & Em & El & _).
    exists t. split; [exact Em | exact El].
  - clear R Hf. run_call H.
    all: repeat constructor.
    all: apply events_without_key; [reflexivity | exact K].
Qed.



Lemma unconfigured_function_witness :
  exists t,
    messages (state (final (Submit demo (viaEdge (Edge.replying [] (js "Hola")) steady) holaTyped)))
    = messages (state holaTyped)
      ++ [userMessage (steady 0%nat DateNow) (state holaTyped); apologyMessage t]
    /\ loading (state (final (Submit demo (viaEdge (Edge.replying [] (js "Hola")) steady) holaTyped)))
       = false.
Proof.
  refine (proj1 (unconfigured_function_gives_the_apology
                   demo (Edge.replying [] (js "Hola")) steady holaTyped _ eq_refl eq_refl)).
  right. reflexivity.
Defined.

(** How the function serves the component when the completion API
    succeeds with the text [raw]. *)
Lemma served_content (eenv : Edge.Env) (base : Env) (key : jsstring)
      (upstream : Edge.UpstreamResponse) (data : JValue) (raw : jsstring) :
  eenv (Edge.EnvGet (js "OPENAI_API_KEY")) = Some key ->
  truthy key = true ->
  (forall url init, eenv (Edge.OpenAIFetch url init) = Fulfilled upstream) ->
  Edge.up_ok upstream = true ->
  Edge.up_json upstream = Fulfilled data ->
  Edge.firstChoiceContent data = Fulfilled (VStr raw) ->
  forall n url init,
    method init = js "POST" ->
    viaEdge eenv base n (Fetch url init)
    = Fulfilled {| ok := true;
                   json := Fulfilled (Edge.parsedResponse (VStr raw)) |}.
Proof.
  intros K Kt U O J C n url init Hm. unfold viaEdge, servedBy.
  erewrite serve_content; try eassumption; try reflexivity.
  simpl. rewrite Hm. apply post_is_not_options.
Qed.

(** X18: when the completion API succeeds with a text that is not JSON,
    the learner sees that text as the assistant turn, with the
    translation "Translation not available" and [null] for a tip. *)
Theorem unparseable_reply_is_shown_as_it_is
        (P : Props) (eenv : Edge.Env) (base : Env) (w : World) (key : jsstring)
        (upstream : Edge.UpstreamResponse) (data : JValue) (raw : jsstring) :
  eenv (Edge.EnvGet (js "OPENAI_API_KEY")) = Some key ->
  truthy key = true ->
  (forall url init, eenv (Edge.OpenAIFetch url init) = Fulfilled upstream) ->
  Edge.up_ok upstream = true ->
  Edge.up_json upstream = Fulfilled data ->
  Edge.firstChoiceContent data = Fulfilled (VStr raw) ->
  JSON_parse raw = None ->
  blocked (state w) = false ->
  userInsertRejected (log (Submit P (viaEdge eenv base) w)) = false ->
  exists t rest,
    appended (log (Submit P (viaEdge eenv base) w))
    = userMessage (base 0%nat DateNow) (state w)
        :: {| msg_id := Number_toString t; msg_role := role_assistant;
              msg_content := VStr raw;
              msg_translation := VStr (js "Translation not available");
              msg_tip := VJson JNull |}
        :: rest.
Proof.
  intros K Kt U O J C Pn H R.
  pose proof (served_content eenv base key upstream data raw K Kt U O J C) as Hf.
  assert (Ep : Edge.parsedResponse (VStr raw) = Edge.fallback (VStr raw)).
  { unfold Edge.parsedResponse. simpl toString. rewrite Pn. reflexivity. }
  rewrite Ep in Hf.
  destruct (Submit_on_reply P (viaEdge eenv base) w (Edge.fallback (VStr raw)) H Hf)
    as (t & rest & E); [discriminate | exact R |].
  exists t, rest. exact E.
Qed.

Lemma unparseable_reply_witness :
  exists t rest,
    appended (log (Submit demo (viaEdge (Edge.replying (js "sk-test") (js "Hola amigo")) steady)
                          holaTyped))
    = userMessage (steady 0%nat DateNow) (state holaTyped)
        :: {| msg_id := Number_toString t; msg_role := role_assistant;
              msg_content := VStr (js "Hola amigo");
              msg_translation := VStr (js "Translation not available");
              msg_tip := VJson JNull |}
        :: rest.
Proof.
  refine (unparseable_reply_is_shown_as_it_is
            demo (Edge.replying (js "sk-test") (js "Hola amigo")) steady holaTyped
            (js "sk-test") (Edge.completion (js "Hola amigo")) _ (js "Hola amigo")
            eq_refl eq_refl _ eq_refl eq_refl eq_refl eq_refl eq_refl eq_refl).
  intros url init. reflexivity.
Defined.

(** X19: when the text of the completion is the JSON value [null], the
    function answers 200 with the body [null], and the component, which
    cannot read a member of it, treats the exchange as failed: the
    learner gets the apology. *)
Theorem null_reply_gives_the_apology
        (P : Props) (eenv : Edge.Env) (base : Env) (w : World) (key : jsstring)
        (upstream : Edge.UpstreamResponse) (data : JValue) (raw : jsstring) :
  eenv (Edge.EnvGet (js "OPENAI_API_KEY")) = Some key ->
  truthy key = true ->
  (forall url init, eenv (Edge.OpenAIFetch url init) = Fulfilled upstream) ->
  Edge.up_ok upstream = true ->
  Edge.up_json upstream = Fulfilled data ->
  Edge.firstChoiceContent data = Fulfilled (VStr raw) ->
  JSON_parse raw = Some JNull ->
  blocked (state w) = false ->
  userInsertRejected (log (Submit P (viaEdge eenv base) w)) = false ->
  (forall init, method init = js "POST" ->
                Edge.run eenv (Edge.serve (wire init))
                = Returned {| Edge.status := 200; Edge.headers := Edge.jsonHeaders;
                              Edge.body := Some JNull |})
  /\ exists t,
      messages (state (final (Submit P (viaEdge eenv base) w)))
      = messages (state w)
        ++ [userMessage (base 0%nat DateNow) (state w); apologyMessage t]
      /\ loading (state (final (Submit P (viaEdge eenv base) w))) = false.
Proof.
  intros K Kt U O J C Pn H R.
  assert (Ep : Edge.parsedResponse (VStr raw) = JNull).
  { unfold Edge.parsedResponse. simpl toString. rewrite Pn. reflexivity. }
  split.
  - intros init Hm. erewrite serve_content; try eassumption; try reflexivity.
    + rewrite Ep. reflexivity.
    + simpl. rewrite Hm. apply post_is_not_options.
  - pose proof (served_content eenv base key upstream data raw K Kt U O J C) as Hf.
    rewrite Ep in Hf.
    destruct (Submit_on_failed_response P (viaEdge eenv base) w _ H Hf eq_refl R)
      as (t & Em & El & _).
    exists t. split; [exact Em | exact El].
Qed.

Lemma null_reply_witness :
  exists t,
    messages (state (final (Submit demo (viaEdge (Edge.replying (js "sk-test") (js "null")) steady)
                                   holaTyped)))
    = messages (state holaTyped)
      ++ [userMessage (steady 0%nat DateNow) (state holaTyped); apologyMessage t]
    /\ loading (state (final (Submit demo (viaEdge (Edge.replying (js "sk-test") (js "null")) steady)
                                     holaTyped))) = false.
Proof.
  refine (proj2 (null_reply_gives_the_apology
                   demo (Edge.replying (js "sk-test") (js "null")) steady holaTyped
                   (js "sk-test") (Edge.completion (js "null")) _ (js "null")
                   eq_refl eq_refl _ eq_refl eq_refl eq_refl eq_refl eq_refl eq_refl)).
  intros url init. reflexivity.
Defined.

(** The call of the completion API the function makes for a [fetch] of
    the component, when it has a key. *)
Lemma events_with_key (eenv : Edge.Env) (init : RequestInit) (c : N) (k : jsstring) :
  method init = js "POST" ->
  eenv (Edge.EnvGet (js "OPENAI_API_KEY")) = Some (c :: k) ->
  exists uinit,
    upstreamCalls (edgeEvents eenv (Edge.serve (wire init)))
    = [ (js "https://api.openai.com/v1/chat/completions", uinit) ]
    /\ Edge.api_messages (Edge.up_body uinit)
       = {| Edge.role := js "system";
            Edge.content :=
              VStr (Edge.getSystemPrompt (req_languageName (body init))
                                         (req_difficulty (body init))) |}
           :: map (fun h => {| Edge.role := roleName (h_role h);
                               Edge.content := onTheWire (h_content h) |})
                  (req_messages (body init)).
Proof.
  intros Hm K. unfold Edge.serve, wire. cbn [Edge.req_method Edge.req_json].
  rewrite Hm, post_is_not_options.
  unfold Edge.perform, Edge.call, Edge.await, trigger. edge_eval.
  rewrite K. edge_cases; eexists; split; reflexivity.
Qed.

(** X20: in a session reached by Initialize, typing and Submit, when the
    function has a key, the completion API receives for a Submit one
    system message, the prompt for the language name and the level of the
    session, then every turn of the session but the greeting, in order,
    each with its speaker and its text, then the trimmed text just
    submitted as a user message. *)
Theorem completion_api_receives_the_session
        (P : Props) (eenv : Edge.Env) (base : Env) (w : World) (c : N) (k : jsstring) :
  reachable P w ->
  blocked (state w) = false ->
  eenv (Edge.EnvGet (js "OPENAI_API_KEY")) = Some (c :: k) ->
  Forall (fun ui =>
            exists uinit,
              upstreamCalls (edgeEvents eenv (Edge.serve (wire (snd ui))))
              = [ (js "https://api.openai.com/v1/chat/completions", uinit) ]
              /\ Edge.api_messages (Edge.up_body uinit)
                 = {| Edge.role := js "system";
                      Edge.content :=
                        VStr (Edge.getSystemPrompt
                                (lang_name (language P))
                                (lang_difficulty_level (language P))) |}
                     :: map (fun m => {| Edge.role := roleName (msg_role m);
                                         Edge.content := onTheWire (msg_content m) |})
                            (afterGreeting (messages (state w)))
                     ++ [ {| Edge.role := js "user";
                             Edge.content := VStr (trim (input (state w))) |} ])
         (fetched (log (Submit P (viaEdge eenv base) w))).
Proof.
  intros R H K.
  assert (Hc : conversationId (state w) <> None).
  { destruct (blocked_false _ H) as (i & Hi & _). congruence. }
  destruct (history_after_greeting P w R Hc) as [_ Eh].
  run_call H.
  all: repeat constructor.
  all: match goal with
       | |- context [wire (snd (?u, ?init))] =>
         destruct (events_with_key eenv init c k eq_refl K) as (uinit & Eu & Em);
         exists uinit; split; [exact Eu|]; rewrite Em; cbn [req_messages body
           req_languageName req_difficulty]; rewrite Eh, map_app, map_map;
         reflexivity
       end.
Qed.

Lemma completion_api_witness :
  Forall (fun ui =>
            exists uinit,
              upstreamCalls (edgeEvents (Edge.replying (js "sk-test") (js "Hola amigo"))
                                        (Edge.serve (wire (snd ui))))
              = [ (js "https://api.openai.com/v1/chat/completions", uinit) ]
              /\ Edge.api_messages (Edge.up_body uinit)
                 = {| Edge.role := js "system";
                      Edge.content :=
                        VStr (Edge.getSystemPrompt (js "Spanish") (js "Beginner")) |}
                     :: map (fun m => {| Edge.role := roleName (msg_role m);
                                         Edge.content := onTheWire (msg_content m) |})
                            (afterGreeting (messages (state adiosTyped)))
                     ++ [ {| Edge.role := js "user";
                             Edge.content := VStr (trim (input (state adiosTyped))) |} ])
         (fetched (log (Submit demo (viaEdge (Edge.replying (js "sk-test") (js "Hola amigo")) steady)
                               adiosTyped))).
Proof.
  refine (completion_api_receives_the_session
            demo (Edge.replying (js "sk-test") (js "Hola amigo")) steady adiosTyped
            115 (js "k-test") _ eq_refl eq_refl).
  unfold adiosTyped, holaFailed, holaTyped, mounted.
  apply reach_type, reach_submit, reach_type, reach_init, reach_mount.
Defined.

(* ================================================================= *)
(** ** The dashboard's dates *)

(** X21: what [formatDate] shows depends on the age of the date in
    milliseconds alone: "Just now" under one minute, also for a date in the
    future; whole minutes from 1 to 59 under one hour; whole hours from 1
    to 23 under one day; whole days from 1 to 6 under one week; the date in
    the form of the locale from one week on.  The count shown is the age
    rounded down to the unit, never zero and never negative. *)
Theorem formatDate_by_age (toLocaleDateString : option Z -> jsstring) (t now : Z) :
  ((now - t < 60000)%Z
   /\ formatDate toLocaleDateString (Some t) now = js "Just now")
  \/ (exists n : Z,
         (1 <= n <= 59)%Z
         /\ (n * 60000 <= now - t < (n + 1) * 60000)%Z
         /\ formatDate toLocaleDateString (Some t) now
            = Number_toString (Z.to_N n) ++ js "m ago")
  \/ (exists n : Z,
         (1 <= n <= 23)%Z
         /\ (n * 3600000 <= now - t < (n + 1) * 3600000)%Z
         /\ formatDate toLocaleDateString (Some t) now
            = Number_toString (Z.to_N n) ++ js "h ago")
  \/ (exists n : Z,
         (1 <= n <= 6)%Z
         /\ (n * 86400000 <= now - t < (n + 1) * 86400000)%Z
         /\ formatDate toLocaleDateString (Some t) now
            = Number_toString (Z.to_N n) ++ js "d ago")
  \/ ((604800000 <= now - t)%Z
      /\ formatDate toLocaleDateString (Some t) now = toLocaleDateString (Some t)).
Proof.
  unfold formatDate. cbv zeta.
  set (d := (now - t)%Z).
  pose proof (Z.div_mod d 60000 ltac:(lia)) as M1.
  pose proof (Z.mod_pos_bound d 60000 ltac:(lia)) as M2.
  pose proof (Z.div_mod d 3600000 ltac:(lia)) as H1.
  pose proof (Z.mod_pos_bound d 3600000 ltac:(lia)) as H2.
  pose proof (Z.div_mod d 86400000 ltac:(lia)) as D1.
  pose proof (Z.mod_pos_bound d 86400000 ltac:(lia)) as D2.
  destruct (Z.ltb_spec (d / 60000) 1) as [A|A].
  { left. split; [lia | reflexivity]. }
  destruct (Z.ltb_spec (d / 60000) 60) as [B|B].
  { right. left. exists (d / 60000)%Z. repeat split; lia. }
  destruct (Z.ltb_spec (d / 3600000) 24) as [C|C].
  { right. right. left. exists (d / 3600000)%Z. repeat split; lia. }
  destruct (Z.ltb_spec (d / 86400000) 7) as [E|E].
  { right. right. right. left. exists (d / 86400000)%Z. repeat split; lia. }
  right. right. right. right. split; [lia | reflexivity].
Qed.

(* ================================================================= *)
(** ** The language selector *)

(** X23: when the request of the languages settles with a result, the
    spinner goes away whatever the result is; the cards are those of the
    data when there is no error and there is data, and the ones there were
    before (none, right after the mount) otherwise: a refused request shows
    as an empty catalogue. *)
Theorem settled_languages_request_ends_the_spinner
        (env : Selector.Env) (r : Chat.PostgrestResult (list AppLanguage))
        (s : Selector.State) :
  env Selector.LanguagesSelect = Fulfilled r ->
  fst (Selector.run env Selector.fetchLanguages s) = Returned tt
  /\ Selector.render (snd (Selector.run env Selector.fetchLanguages s))
     = Selector.Cards
         match Chat.error r, Chat.data r with
         | None, Some d => d
         | _, _ => Selector.languages s
         end.
Proof.
  intros E. unfold Selector.fetchLanguages, Selector.await, Selector.call.
  cbn. rewrite E. cbn.
  destruct (Chat.error r), (Chat.data r); cbn; split; reflexivity.
Qed.

Lemma settled_languages_request_witness :
  fst (Selector.run
         (Selector.answering
            (Fulfilled {| Chat.data := None;
                          Chat.error := Some (js "permission denied") |}))
         Selector.fetchLanguages Selector.initialState)
  = Returned tt
  /\ Selector.render
       (snd (Selector.run
               (Selector.answering
                  (Fulfilled {| Chat.data := None;
                                Chat.error := Some (js "permission denied") |}))
               Selector.fetchLanguages Selector.initialState))
     = Selector.Cards [].
Proof.
  apply (settled_languages_request_ends_the_spinner
           (Selector.answering
              (Fulfilled {| Chat.data := None;
                            Chat.error := Some (js "permission denied") |}))
           {| Chat.data := None; Chat.error := Some (js "permission denied") |}
           Selector.initialState).
  reflexivity.
Defined.

(** X24: every language the migration seeds has a level the selector
    knows once it is in lower case: none of them gets the gray badge of
    the default. *)
Theorem seeded_levels_have_a_colour (toLowerCase : jsstring -> jsstring) :
  (forall s, Selector.isAscii s = true -> toLowerCase s = map Selector.lowerUnit s) ->
  Forall (fun l => Selector.getDifficultyColor toLowerCase (snd l) <> Selector.gray)
         seededLanguages.
Proof.
  intros L. unfold seededLanguages, Selector.getDifficultyColor.
  repeat constructor; cbn [snd]; rewrite L by reflexivity;
    vm_compute; discriminate.
Qed.

Lemma seeded_levels_witness :
  Forall (fun l => Selector.getDifficultyColor (map Selector.lowerUnit) (snd l)
                   <> Selector.gray)
         seededLanguages.
Proof.
  apply (seeded_levels_have_a_colour (map Selector.lowerUnit)).
  intros s _. reflexivity.
Defined.

(* ================================================================= *)
(** ** The shell and the seeded catalogue *)

(** X25: every language the migration seeds is greeted in its own words:
    its name is a key of [welcomes], and the greeting is not the English
    one of the default. *)
Theorem seeded_languages_have_their_greeting :
  Forall (fun l =>
            exists s,
              assoc (fst (fst l)) welcomes = Some s
              /\ getWelcomeMessage (fst (fst l)) = VStr s
              /\ s <> js "Hello! Let's practice together!")
         seededLanguages.
Proof.
  unfold seededLanguages.
  repeat constructor; cbn [fst]; eexists; (split; [vm_compute; reflexivity|]);
    (split; [vm_compute; reflexivity|]); vm_compute; discriminate.
Qed.

(** X26: the shell shows the chat only once the authentication has
    loaded, with a signed-in user and a selected language; so the chat it
    mounts always asks for a conversation, for that user and that
    language, and for nothing else. *)
Theorem shell_mounts_the_chat_for_a_signed_in_user
        (url anon : jsstring) (s : AppState) (l : AppLanguage)
        (env : Env) (w : World) :
  AppContent s = ChatView l ->
  exists u,
    authLoading s = false
    /\ authUser s = Some u
    /\ selectedLanguage s = Some l
    /\ requests (log (Initialize (chatProps url anon s l) env w))
       = [ ConversationsInsert
             {| ci_user_id := user_id u;
                ci_language_code := lang_code (chatLanguage l);
                ci_title := lang_name (chatLanguage l) ++ js " Practice";
                ci_difficulty := lang_difficulty_level (chatLanguage l) |} ].
Proof.
  unfold AppContent. intros H.
  destruct (authLoading s); [discriminate|].
  destruct (authUser s) as [u|] eqn:U; [|destruct (authMode s); discriminate].
  destruct (selectedLanguage s) as [l'|]; [|discriminate].
  injection H as ->. exists u. repeat split.
  unfold Initialize, run, initializeConversation, chatProps. cbn [user language].
  rewrite U. unfold await, call. cbn -[js welcomeMessage].
  destruct (env 0%nat _) as [[[d|] [e|]]|x]; reflexivity.
Qed.

Lemma shell_mounts_the_chat_witness :
  let s := {| authUser := user demo; authLoading := false; authMode := login;
              selectedLanguage :=
                Some {| chatLanguage := language demo; description := js "Romance" |} |} in
  exists u,
    authLoading s = false
    /\ authUser s = Some u
    /\ selectedLanguage s
       = Some {| chatLanguage := language demo; description := js "Romance" |}
    /\ requests (log (Initialize
                        (chatProps (VITE_SUPABASE_URL demo) (VITE_SUPABASE_ANON_KEY demo) s
                                   {| chatLanguage := language demo;
                                      description := js "Romance" |})
                        creating (initialWorld emptyStore)))
       = [ ConversationsInsert
             {| ci_user_id := user_id u;
                ci_language_code := lang_code (language demo);
                ci_title := lang_name (language demo) ++ js " Practice";
                ci_difficulty := lang_difficulty_level (language demo) |} ].
Proof.
  intros s.
  apply (shell_mounts_the_chat_for_a_signed_in_user
           (VITE_SUPABASE_URL demo) (VITE_SUPABASE_ANON_KEY demo) s
           {| chatLanguage := language demo; description := js "Romance" |}
           creating (initialWorld emptyStore)).
  reflexivity.
Defined.
